(** * RefreshLakehouseMetadata.py: resolver and refresh orchestrator

    A shallow embedding of [src/RefreshLakehouseMetadata.py].

    The script talks to a backend over HTTP, reads the wall clock, sleeps
    and prints.  Those effects are threaded through an explicit [World]:
    - the backend is a deterministic script [respond : nat -> Response]
      giving the answer to the k-th request of the run (the run is
      sequential, so every server behaviour is such a script), together
      with the time each request takes;
    - the clock counts whole seconds ([time.time()] is a float in Python);
      it advances by the latency of a request and by the argument of
      [time.sleep];
    - the trace records requests, sleeps and printed lines in order.

    Python [str] values are modelled as [string]: a text is the sequence of
    bytes of its UTF-8 encoding, on which [==] and [in] are those of the
    text.  The built-ins [str.lower] and [repr] are parameters of the
    development (section [Script]); [str(int)] is the decimal numeral.
    JSON descriptors are records whose [displayName] and [id] are always
    present (the listing APIs return them), while [type] is read with
    [.get] and may be absent.  [max_wait_minutes] is a whole number of
    minutes, as the script's default and its usage block pass it; a
    fractional value is outside the model, as is the floating point of
    [time.time()].
    Request headers (the bearer token) do not influence control flow and
    are left out of the recorded requests.  Transport errors of [requests]
    and bodies that are not JSON objects are outside the model.

    The [while] loop is a function with fuel; [refresh_total] shows that
    the fuel given to it is never used up. *)

From Stdlib Require Import ZArith List String Ascii Bool Lia DecimalString.
Import ListNotations.

Local Open Scope string_scope.
Local Open Scope Z_scope.

(** ** Python string operations *)

Module PyStr.

(** [c.lower()] on one ASCII character. *)
Definition lower_char (c : ascii) : ascii :=
  let n := nat_of_ascii c in
  if ((65 <=? n) && (n <=? 90))%nat then ascii_of_nat (n + 32) else c.

(** [s.lower()] for a text of ASCII characters. *)
Fixpoint ascii_lower (s : string) : string :=
  match s with
  | EmptyString => EmptyString
  | String c t => String (lower_char c) (ascii_lower t)
  end.

(** The text has ASCII characters only. *)
Fixpoint is_ascii (s : string) : bool :=
  match s with
  | EmptyString => true
  | String c t => (nat_of_ascii c <? 128)%nat && is_ascii t
  end.

(** [needle in hay] *)
Fixpoint contains (needle hay : string) : bool :=
  String.prefix needle hay
  || match hay with
     | EmptyString => false
     | String _ t => contains needle t
     end.

(** [str(n)] for an [int] *)
Definition str_of_int (z : Z) : string := NilZero.string_of_int (Z.to_int z).

(** [str(len(l))] *)
Definition str_of_len {A} (l : list A) : string :=
  NilZero.string_of_uint (Nat.to_uint (List.length l)).

Definition squote : ascii := "039"%char.
Definition dquote : ascii := "034"%char.
Definition backslash : ascii := "092"%char.

Definition hex_digit (n : nat) : ascii :=
  if (n <? 10)%nat then ascii_of_nat (48 + n) else ascii_of_nat (87 + n).

(** One character of [repr(s)], [q] being the quote chosen for [s]. *)
Definition repr_char (q c : ascii) : string :=
  let n := nat_of_ascii c in
  if Ascii.eqb c q || Ascii.eqb c backslash then String backslash (String c EmptyString)
  else if (n =? 9)%nat then String backslash "t"
  else if (n =? 10)%nat then String backslash "n"
  else if (n =? 13)%nat then String backslash "r"
  else if ((n <? 32) || (n =? 127))%nat then
    String backslash
      (String "x" (String (hex_digit (n / 16)) (String (hex_digit (n mod 16)) EmptyString)))
  else String c EmptyString.

Fixpoint repr_body (q : ascii) (s : string) : string :=
  match s with
  | EmptyString => EmptyString
  | String c t => repr_char q c ++ repr_body q t
  end.

(** [repr(s)] for a text of ASCII characters: single quotes unless [s] has
    a single quote and no double quote. *)
Definition ascii_repr (s : string) : string :=
  let q :=
    if contains (String squote EmptyString) s
       && negb (contains (String dquote EmptyString) s)
    then dquote else squote in
  String q (repr_body q s ++ String q EmptyString).

(** [", ".join(l)] *)
Fixpoint join_comma (l : list string) : string :=
  match l with
  | [] => EmptyString
  | [x] => x
  | x :: t => x ++ ", " ++ join_comma t
  end.

(** [repr(l)] for a list of [str], as an f-string interpolates it, [repr]
    being the [repr] of a [str]. *)
Definition repr_list (repr : string -> string) (l : list string) : string :=
  "[" ++ join_comma (map repr l) ++ "]".

(** [s] occurs in [h] as a contiguous block. *)
Definition occurs_in (s h : string) : Prop :=
  exists pre post : string, h = pre ++ s ++ post.

End PyStr.

(** ** Data model *)

(** A resource descriptor of a listing: [{id, displayName, type}]. *)
Record Item : Type := mkItem {
  id : string;
  displayName : string;
  type : option string
}.

(** What the code reads of a [requests] response. *)
Record Response : Type := mkResponse {
  status_code : Z;
  text : string;
  json_value : option (list Item);      (* response.json()['value'] when present *)
  headers_Location : option string      (* response.headers.get('Location') *)
}.

(** [response.json().get('value', [])] *)
Definition value_or_empty (r : Response) : list Item :=
  match json_value r with
  | Some l => l
  | None => []
  end.

(** Python truthiness of an optional string: [None] and [''] are falsy. *)
Definition truthy (o : option string) : bool :=
  match o with
  | Some (String _ _) => true
  | _ => false
  end.

(** One constructor per [raise Exception(...)] of the script, carrying the
    values its message interpolates. *)
Inductive Exception : Type :=
| LakehousesListFailed (code : Z) (body : string)
| NotFound (lakehouse_name : string) (available_names : list string)
| ItemsListFailed (code : Z) (body : string)
| NoMatchingEndpoint (via_items : bool) (lakehouse_name : string)
                     (endpoint_names : list string)
| PollFailed (code : Z) (body : string)
| RefreshTimedOut (max_wait_minutes : Z)
| TriggerFailed (code : Z) (body : string).

(** ** The world: backend, clock and trace *)

Inductive Event : Type :=
| EvGetToken (audience : string)
| EvGet (url : string)
| EvPost (url : string)
| EvSleep (seconds : Z)
| EvPrint (line : string).

Record Backend : Type := mkBackend {
  respond : nat -> Response;     (* answer to the k-th request of the run *)
  latency : nat -> nat;          (* seconds the k-th request takes *)
  pbi_token : string             (* notebookutils.credentials.getToken("pbi") *)
}.

Record World : Type := mkWorld {
  clock : Z;                     (* time.time(), in seconds *)
  served : nat;                  (* requests issued so far *)
  trace : list Event
}.

Inductive Outcome (A : Type) : Type :=
| Return (a : A)
| Raised (e : Exception)
| OutOfFuel.

Arguments Return {A} a.
Arguments Raised {A} e.
Arguments OutOfFuel {A}.

Definition M (A : Type) : Type := World -> Outcome A * World.

Definition ret {A} (a : A) : M A := fun w => (Return a, w).

Definition raise {A} (e : Exception) : M A := fun w => (Raised e, w).

Definition bind {A B} (m : M A) (k : A -> M B) : M B :=
  fun w =>
    match m w with
    | (Return a, w') => k a w'
    | (Raised e, w') => (Raised e, w')
    | (OutOfFuel, w') => (OutOfFuel, w')
    end.

Notation "x <- m ;; k" := (bind m (fun x => k))
  (at level 61, m at next level, right associativity).
Notation "m ;;; k" := (bind m (fun _ => k))
  (at level 61, right associativity).

Definition log (e : Event) (w : World) : World :=
  {| clock := clock w; served := served w; trace := (trace w ++ [e])%list |}.

Definition print (line : string) : M unit :=
  fun w => (Return tt, log (EvPrint line) w).

Definition time_time : M Z := fun w => (Return (clock w), w).

Definition time_sleep (seconds : Z) : M unit :=
  fun w =>
    (Return tt,
     {| clock := clock w + seconds; served := served w;
        trace := (trace w ++ [EvSleep seconds])%list |}).

(** The world after one request has been answered. *)
Definition after_request (srv : Backend) (e : Event) (w : World) : World :=
  {| clock := clock w + Z.of_nat (latency srv (served w));
     served := S (served w);
     trace := (trace w ++ [e])%list |}.

Definition requests_get (srv : Backend) (url : string) : M Response :=
  fun w => (Return (respond srv (served w)), after_request srv (EvGet url) w).

Definition requests_post (srv : Backend) (url : string) : M Response :=
  fun w => (Return (respond srv (served w)), after_request srv (EvPost url) w).

Definition getToken (srv : Backend) (audience : string) : M string :=
  fun w => (Return (pbi_token srv), log (EvGetToken audience) w).

(** [for x in l: body(x)] for a body that neither breaks nor returns. *)
Fixpoint for_each {A} (l : list A) (body : A -> M unit) : M unit :=
  match l with
  | [] => ret tt
  | x :: t => body x ;;; for_each t body
  end.

(** ** Scripted backends for concrete runs *)

Module Scenario.

Definition listing (l : list Item) : Response :=
  {| status_code := 200; text := EmptyString; json_value := Some l;
     headers_Location := None |}.

Definition answer (code : Z) (body : string) : Response :=
  {| status_code := code; text := body; json_value := None;
     headers_Location := None |}.

Definition accepted (location : string) : Response :=
  {| status_code := 202; text := EmptyString; json_value := None;
     headers_Location := Some location |}.

(** Answers [rs] in order, then [rest] for ever; every request takes
    [seconds]. *)
Definition scripted (rs : list Response) (rest : Response) (seconds : nat) : Backend :=
  {| respond := fun k => nth k rs rest;
     latency := fun _ => seconds;
     pbi_token := "token" |}.

Definition lakehouse_foo : Item :=
  {| id := "L1"; displayName := "foo"; type := Some "Lakehouse" |}.

Definition endpoint (i n : string) : Item :=
  {| id := i; displayName := n; type := Some "SQLEndpoint" |}.

(** The lakehouse "foo" exists, the direct endpoint listing is
    unavailable, the items listing answers [items]. *)
Definition items_backend (items : list Item) : Backend :=
  scripted [listing [lakehouse_foo]; answer 404 "unavailable"; listing items]
    (answer 500 "unexpected") 0.

(** The lakehouse "foo" exists and the direct listing answers [endpoints]. *)
Definition direct_backend (endpoints : list Item) : Backend :=
  scripted [listing [lakehouse_foo]; listing endpoints] (answer 500 "unexpected") 0.

(** The lakehouse listing answers [lakehouses]; the direct listing has the
    endpoint "E1" named "foo". *)
Definition lakehouses_backend (lakehouses : list Item) : Backend :=
  scripted [listing lakehouses; listing [endpoint "E1" "foo"]]
    (answer 500 "unexpected") 0.

Definition lakehouse (i n : string) : Item :=
  {| id := i; displayName := n; type := Some "Lakehouse" |}.

(** Resolution finds endpoint "E1" on the direct path; the trigger and the
    polls are then answered by [after], and by [rest] for ever. *)
Definition refresh_backend (after : list Response) (rest : Response) (seconds : nat)
  : Backend :=
  scripted ([listing [lakehouse_foo]; listing [endpoint "E1" "foo"]] ++ after)
    rest seconds.

End Scenario.

(** ** The script, over the built-ins of the interpreter *)

Section Script.

(** [str.lower] and the [repr] of a [str] are built-ins of Python, not code
    of the script.  They are Unicode-aware ([str.lower] maps a capital
    sigma by its context, [repr] escapes what is not printable) and are
    not re-implemented here: the script is stated over any two functions
    on texts, so that every theorem below holds for Python's own. *)
Variable lower : string -> string.
Variable repr : string -> string.

(** The text of the exception, as the f-string builds it. *)
Definition message (e : Exception) : string :=
  match e with
  | LakehousesListFailed c b =>
      "Failed to get lakehouses: " ++ PyStr.str_of_int c ++ " - " ++ b
  | NotFound n names =>
      "Lakehouse '" ++ n ++ "' not found. Available: " ++ PyStr.repr_list repr names
  | ItemsListFailed c b =>
      "Failed to get workspace items: " ++ PyStr.str_of_int c ++ " - " ++ b
  | NoMatchingEndpoint true n names =>
      "No SQL endpoint found for lakehouse '" ++ n
      ++ "'. Available SQL endpoints: " ++ PyStr.repr_list repr names
  | NoMatchingEndpoint false n names =>
      "No SQL endpoint found for lakehouse '" ++ n
      ++ "'. Available: " ++ PyStr.repr_list repr names
  | PollFailed c b =>
      "Status check failed: " ++ PyStr.str_of_int c ++ " - " ++ b
  | RefreshTimedOut m =>
      "Refresh timed out after " ++ PyStr.str_of_int m ++ " minutes"
  | TriggerFailed c b =>
      "Refresh failed to start: " ++ PyStr.str_of_int c ++ " - " ++ b
  end.

(** ** Resolver: [get_sql_endpoint_for_lakehouse] *)

Definition api_root : string := "https://api.fabric.microsoft.com/v1/workspaces/".

(** [item.get('type') == 'SQLEndpoint'] *)
Definition is_sql_endpoint (item : Item) : bool :=
  match type item with
  | Some t => String.eqb t "SQLEndpoint"
  | None => false
  end.

(** [lakehouse['displayName'] == lakehouse_name] *)
Definition names_lakehouse (lakehouse_name : string) (lakehouse : Item) : bool :=
  String.eqb (displayName lakehouse) lakehouse_name.

(** Condition of the first loop of the items path. *)
Definition marker_match (lakehouse_name : string) (endpoint : Item) : bool :=
  let endpoint_name := lower (displayName endpoint) in
  PyStr.contains (lower lakehouse_name) endpoint_name
  && (PyStr.contains "sql" endpoint_name || PyStr.contains "analytics" endpoint_name).

(** Condition of the second loop of the items path. *)
Definition exact_match (lakehouse_name : string) (endpoint : Item) : bool :=
  String.eqb (lower (displayName endpoint)) (lower lakehouse_name).

(** Condition of the loop of the direct path. *)
Definition relaxed_match (lakehouse_name : string) (endpoint : Item) : bool :=
  let endpoint_name := lower (displayName endpoint) in
  PyStr.contains (lower lakehouse_name) endpoint_name
  || String.eqb (lower (displayName endpoint)) (lower lakehouse_name).

(** The two search loops of the items path: [target_sql_endpoint] after
    them ([None] when neither loop assigned it). *)
Definition search_items_path (lakehouse_name : string) (sql_endpoints : list Item)
  : option Item :=
  match find (marker_match lakehouse_name) sql_endpoints with
  | Some endpoint => Some endpoint
  | None => find (exact_match lakehouse_name) sql_endpoints
  end.

(** The search loop of the direct path. *)
Definition search_direct_path (lakehouse_name : string) (sql_endpoints : list Item)
  : option Item :=
  find (relaxed_match lakehouse_name) sql_endpoints.

(** The line printed for each listed endpoint. *)
Definition endpoint_line (endpoint : Item) : string :=
  "  - " ++ displayName endpoint ++ " (ID: " ++ id endpoint ++ ")".

Definition print_endpoint (endpoint : Item) : M unit :=
  print (endpoint_line endpoint).

Definition get_sql_endpoint_for_lakehouse (srv : Backend)
    (workspace_id lakehouse_name access_token : string) : M string :=
  let lakehouses_url := api_root ++ workspace_id ++ "/lakehouses" in
  print ("Looking for lakehouse: " ++ lakehouse_name) ;;;
  response <- requests_get srv lakehouses_url ;;
  if negb (status_code response =? 200) then
    raise (LakehousesListFailed (status_code response) (text response))
  else
    let lakehouses := value_or_empty response in
    match find (names_lakehouse lakehouse_name) lakehouses with
    | None => raise (NotFound lakehouse_name (map displayName lakehouses))
    | Some target_lakehouse =>
        let lakehouse_id := id target_lakehouse in
        print ("Found lakehouse '" ++ lakehouse_name ++ "' with ID: " ++ lakehouse_id) ;;;
        let sqlendpoints_url := api_root ++ workspace_id ++ "/sqlEndpoints" in
        print "Looking for SQL endpoints in workspace..." ;;;
        response <- requests_get srv sqlendpoints_url ;;
        if negb (status_code response =? 200) then
          print ("Failed to get SQL endpoints directly: "
                 ++ PyStr.str_of_int (status_code response) ++ " - " ++ text response) ;;;
          print "Trying alternative approach - listing all items..." ;;;
          let items_url := api_root ++ workspace_id ++ "/items" in
          response <- requests_get srv items_url ;;
          if negb (status_code response =? 200) then
            raise (ItemsListFailed (status_code response) (text response))
          else
            let items := value_or_empty response in
            let sql_endpoints := filter is_sql_endpoint items in
            print ("Found " ++ PyStr.str_of_len sql_endpoints
                   ++ " SQL endpoints via items API:") ;;;
            for_each sql_endpoints print_endpoint ;;;
            match search_items_path lakehouse_name sql_endpoints with
            | None =>
                raise (NoMatchingEndpoint true lakehouse_name
                         (map displayName sql_endpoints))
            | Some target_sql_endpoint =>
                let sql_endpoint_id := id target_sql_endpoint in
                print ("Found SQL endpoint: '" ++ displayName target_sql_endpoint
                       ++ "' with ID: " ++ sql_endpoint_id) ;;;
                ret sql_endpoint_id
            end
        else
          let sql_endpoints := value_or_empty response in
          print ("Found " ++ PyStr.str_of_len sql_endpoints ++ " SQL endpoints:") ;;;
          for_each sql_endpoints print_endpoint ;;;
          match search_direct_path lakehouse_name sql_endpoints with
          | None =>
              raise (NoMatchingEndpoint false lakehouse_name
                       (map displayName sql_endpoints))
          | Some target_sql_endpoint =>
              let sql_endpoint_id := id target_sql_endpoint in
              print ("Found SQL endpoint: '" ++ displayName target_sql_endpoint
                     ++ "' with ID: " ++ sql_endpoint_id) ;;;
              ret sql_endpoint_id
          end
    end.

(** ** Orchestrator: [refresh_sql_endpoint_and_wait] *)

(** How a [while] loop inside a function ends: by a [return] in its body,
    or because its condition became false. *)
Inductive LoopExit : Type :=
| Returned (v : bool)
| Fallthrough.

(** The [while time.time() - start_time < max_wait_seconds] loop.  [fuel]
    bounds the number of times the condition is evaluated. *)
Fixpoint poll_loop (srv : Backend) (fuel : nat)
    (status_url : string) (start_time max_wait_seconds : Z) : M LoopExit :=
  match fuel with
  | O => fun w => (OutOfFuel, w)
  | S fuel' =>
      now <- time_time ;;
      if now - start_time <? max_wait_seconds then
        status_response <- requests_get srv status_url ;;
        if status_code status_response =? 200 then
          print "✅ Refresh completed successfully!" ;;;
          ret (Returned true)
        else if status_code status_response =? 202 then
          print "⏳ Refresh still in progress..." ;;;
          time_sleep 30 ;;;
          poll_loop srv fuel' status_url start_time max_wait_seconds
        else
          raise (PollFailed (status_code status_response) (text status_response))
      else ret Fallthrough
  end.

(** Every pending round takes at least the 30 seconds it sleeps, so the
    condition is evaluated at most this many times. *)
Definition poll_fuel (max_wait_seconds : Z) : nat :=
  S (S (Z.to_nat (max_wait_seconds / 30))).

Definition refresh_url (workspace_id sql_endpoint_id : string) : string :=
  api_root ++ workspace_id ++ "/sqlEndpoints/" ++ sql_endpoint_id ++ "/refreshMetadata".

(** Lines 119-164: the trigger request, the classification of its
    response and the monitoring of the status location. *)
Definition trigger_and_monitor (srv : Backend)
    (workspace_id sql_endpoint_id : string) (max_wait_minutes : Z) : M bool :=
  let refresh_url := refresh_url workspace_id sql_endpoint_id in
  print ("Refresh URL: " ++ refresh_url) ;;;
  response <- requests_post srv refresh_url ;;
  print ("Response status: " ++ PyStr.str_of_int (status_code response)) ;;;
  print ("Response: " ++ text response) ;;;
  if status_code response =? 202 then
    let status_url := headers_Location response in
    if negb (truthy status_url) then
      print "⚠️ No Location header, assuming immediate completion" ;;;
      ret true
    else
      print "Refresh started. Monitoring status..." ;;;
      let max_wait_seconds := max_wait_minutes * 60 in
      start_time <- time_time ;;
      exit <- poll_loop srv (poll_fuel max_wait_seconds)
                (match status_url with Some u => u | None => EmptyString end)
                start_time max_wait_seconds ;;
      match exit with
      | Returned v => ret v
      | Fallthrough => raise (RefreshTimedOut max_wait_minutes)
      end
  else if status_code response =? 200 then
    print "✅ Refresh completed immediately!" ;;;
    ret true
  else
    raise (TriggerFailed (status_code response) (text response)).

(** Lines 110-164; lines 119-164 are [trigger_and_monitor]. *)
Definition refresh_sql_endpoint_and_wait (srv : Backend)
    (lakehouse_name workspace_id : string) (max_wait_minutes : Z) : M bool :=
  access_token <- getToken srv "pbi" ;;
  print ("Using workspace ID: " ++ workspace_id) ;;;
  sql_endpoint_id <-
    get_sql_endpoint_for_lakehouse srv workspace_id lakehouse_name access_token ;;
  trigger_and_monitor srv workspace_id sql_endpoint_id max_wait_minutes.

(** ** Reading a run *)

Definition outcome {A} (r : Outcome A * World) : Outcome A := fst r.
Definition final {A} (r : Outcome A * World) : World := snd r.

(** The sleeps, in order, and the requests, in order, of a trace. *)
Fixpoint sleeps (t : list Event) : list Z :=
  match t with
  | [] => []
  | EvSleep n :: t' => n :: sleeps t'
  | _ :: t' => sleeps t'
  end.

Definition is_request (e : Event) : bool :=
  match e with
  | EvGet _ | EvPost _ => true
  | _ => false
  end.

Definition requests_of (t : list Event) : list Event := filter is_request t.

Definition world0 : World := {| clock := 0; served := 0; trace := [] |}.

(** The world with further events on its trace. *)
Definition logs (es : list Event) (w : World) : World :=
  {| clock := clock w; served := served w; trace := (trace w ++ es)%list |}.

(** The world in which the resolver is entered: the token has been
    obtained and the workspace printed. *)
Definition resolver_entry (workspace_id : string) (w : World) : World :=
  logs [EvGetToken "pbi"; EvPrint ("Using workspace ID: " ++ workspace_id)] w.

(** The run of the resolver inside [refresh_sql_endpoint_and_wait]. *)
Definition resolution (srv : Backend) (lakehouse_name workspace_id : string)
    (w : World) : Outcome string * World :=
  get_sql_endpoint_for_lakehouse srv workspace_id lakehouse_name (pbi_token srv)
    (resolver_entry workspace_id w).

(** The world when the [while] loop is entered after the trigger request
    was answered from world [w]. *)
Definition loop_entry (srv : Backend) (workspace_id sql_endpoint_id : string)
    (w : World) : World :=
  let url := refresh_url workspace_id sql_endpoint_id in
  let response := respond srv (served w) in
  {| clock := clock w + Z.of_nat (latency srv (served w));
     served := S (served w);
     trace := (trace w
               ++ [EvPrint ("Refresh URL: " ++ url);
                   EvPost url;
                   EvPrint ("Response status: " ++ PyStr.str_of_int (status_code response));
                   EvPrint ("Response: " ++ text response);
                   EvPrint "Refresh started. Monitoring status..."])%list |}.

(** One round of the loop whose poll was answered 202. *)
Definition pending_round (srv : Backend) (status_url : string) (w : World) : World :=
  {| clock := clock w + Z.of_nat (latency srv (served w)) + 30;
     served := S (served w);
     trace := (trace w
               ++ [EvGet status_url;
                   EvPrint "⏳ Refresh still in progress...";
                   EvSleep 30])%list |}.

Fixpoint pending_rounds (srv : Backend) (status_url : string) (k : nat) (w : World)
  : World :=
  match k with
  | O => w
  | S k' => pending_round srv status_url (pending_rounds srv status_url k' w)
  end.

(** ** Specification vocabulary *)

(** [e] is the first element of [l], in listing order, that has [P]. *)
Definition first_with {A} (P : A -> Prop) (l : list A) (e : A) : Prop :=
  exists before after : list A,
    l = (before ++ e :: after)%list /\ P e /\ forall x, In x before -> ~ P x.

(** [resourceName] occurs in the display name, letter case ignored. *)
Definition name_within (resourceName : string) (e : Item) : Prop :=
  PyStr.occurs_in (lower resourceName) (lower (displayName e)).

(** The display name has a marker token, letter case ignored. *)
Definition has_marker (e : Item) : Prop :=
  PyStr.occurs_in "sql" (lower (displayName e))
  \/ PyStr.occurs_in "analytics" (lower (displayName e)).

(** Rule (a) of the name-match heuristic. *)
Definition rule_a (resourceName : string) (e : Item) : Prop :=
  name_within resourceName e /\ has_marker e.

(** Rule (b): equality of the names, letter case ignored. *)
Definition rule_b (resourceName : string) (e : Item) : Prop :=
  lower (displayName e) = lower resourceName.

(** Seconds on the clock, since the loop was entered, when its condition
    is evaluated for the [k]-th time (from 0) after [k] pending polls, the
    first of which was request number [first]. *)
Fixpoint elapsed_before (srv : Backend) (first k : nat) : Z :=
  match k with
  | O => 0
  | S k' => elapsed_before srv first k' + Z.of_nat (latency srv (first + k')) + 30
  end.

(** Rule (c) of the heuristic as the specification words it, for the
    direct listing: the relaxed substring rule first, rule (b) after it. *)
Definition spec_direct_selection (resourceName : string) (endpoints : list Item)
  : option Item :=
  match find (fun e => PyStr.contains (lower resourceName)
                         (lower (displayName e))) endpoints with
  | Some e => Some e
  | None =>
      find (fun e => String.eqb (lower (displayName e))
                       (lower resourceName)) endpoints
  end.

(** A candidate is plausible on the items path, resp. on the direct path. *)
Definition plausible_items (resourceName : string) (e : Item) : Prop :=
  rule_a resourceName e \/ rule_b resourceName e.

Definition plausible_direct (resourceName : string) (e : Item) : Prop :=
  name_within resourceName e.

(** What a listing says of a resource to the resolver. *)
Definition descriptor (i : Item) : string * string := (id i, displayName i).

(** The two listings describe the same resources: [direct] holds, in the
    order of [items], one entry for each item whose type is SQLEndpoint,
    with the identifier and the display name of that item, and nothing
    else.  (The entries of [direct] need not carry a type.) *)
Inductive same_resources : list Item -> list Item -> Prop :=
| same_none : same_resources [] []
| same_endpoint (d : Item) (direct : list Item) (i : Item) (items : list Item) :
    type i = Some "SQLEndpoint" ->
    id d = id i ->
    displayName d = displayName i ->
    same_resources direct items ->
    same_resources (d :: direct) (i :: items)
| same_other (direct : list Item) (i : Item) (items : list Item) :
    type i <> Some "SQLEndpoint" ->
    same_resources direct items ->
    same_resources direct (i :: items).

(** The requests and the sleeps of a trace, in order. *)
Definition is_timed (e : Event) : bool :=
  match e with
  | EvGet _ | EvPost _ | EvSleep _ => true
  | _ => false
  end.

Definition schedule (t : list Event) : list Event := filter is_timed t.

(** [k] times: a poll of the status location, then a sleep of 30. *)
Fixpoint poll_rounds (status_url : string) (k : nat) : list Event :=
  match k with
  | O => []
  | S k' => EvGet status_url :: EvSleep 30 :: poll_rounds status_url k'
  end.

(** A run entered in world [w] that issued the trigger request and no
    other request, and never slept. *)
Definition only_triggered (workspace_id sql_endpoint_id : string) (w : World)
    {A} (r : Outcome A * World) : Prop :=
  requests_of (trace (final r))
    = (requests_of (trace w) ++ [EvPost (refresh_url workspace_id sql_endpoint_id)])%list
  /\ sleeps (trace (final r)) = sleeps (trace w)
  /\ served (final r) = S (served w).

(** The printed lines of a listing of endpoints, as events. *)
Definition endpoint_lines (l : list Item) : list Event :=
  map (fun e => EvPrint (endpoint_line e)) l.

(** ** The usage block (lines 166-179) *)

(** [try: body / except Exception as e: handler(e)] *)
Definition try_except {A} (body : M A) (handler : Exception -> M A) : M A :=
  fun w =>
    match body w with
    | (Raised e, w') => handler e w'
    | r => r
    end.

(** The script's own run: the exception is printed and re-raised. *)
Definition usage (srv : Backend) : M unit :=
  try_except
    (let workspace_id := EmptyString in
     let lakehouse_name := "lakehouse_main" in
     refresh_sql_endpoint_and_wait srv lakehouse_name workspace_id 30 ;;;
     print "Pipeline can continue - SQL endpoint is refreshed!")
    (fun e => print ("Error: " ++ message e) ;;; raise e).

(** ** Vocabulary for whole runs *)

(** The requests the resolver can issue, in the order it issues them. *)
Definition resolver_urls (workspace_id : string) : list Event :=
  [EvGet (api_root ++ workspace_id ++ "/lakehouses");
   EvGet (api_root ++ workspace_id ++ "/sqlEndpoints");
   EvGet (api_root ++ workspace_id ++ "/items")].

(** A run entered in world [w] that issued the first [n] requests of the
    resolver, nothing else, and never slept. *)
Definition issued_gets (workspace_id : string) (n : nat) (w : World)
    {A} (r : Outcome A * World) : Prop :=
  requests_of (trace (final r))
    = (requests_of (trace w) ++ firstn n (resolver_urls workspace_id))%list
  /\ sleeps (trace (final r)) = sleeps (trace w)
  /\ served (final r) = (served w + n)%nat.

(** The status location as the loop receives it. *)
Definition location_of (r : Response) : string :=
  match headers_Location r with
  | Some u => u
  | None => EmptyString
  end.

(** ** Strings and lists *)

Section StringFacts.

Lemma string_app_assoc (a b c : string) : (a ++ b) ++ c = a ++ b ++ c.
Proof. induction a as [|x a IH]; simpl; [reflexivity | now rewrite IH]. Qed.

Lemma prefix_iff (n h : string) :
  String.prefix n h = true <-> exists post, h = n ++ post.
Proof.
  revert h; induction n as [|c n IH]; intros h.
  - split; [intros _; now exists h | intros _; now destruct h].
  - destruct h as [|d h]; simpl.
    + split; [discriminate | intros [p Hp]; discriminate].
    + destruct (ascii_dec c d) as [->|Hne].
      * rewrite IH. split; intros [p Hp]; exists p; congruence.
      * split; [discriminate | intros [p Hp]; congruence].
Qed.

Lemma contains_iff (n h : string) :
  PyStr.contains n h = true <-> PyStr.occurs_in n h.
Proof.
  unfold PyStr.occurs_in. induction h as [|d h IH]; cbn [PyStr.contains].
  - rewrite orb_false_r, prefix_iff. split.
    + intros [p Hp]. now exists EmptyString, p.
    + intros [[|x pre] [post Hp]]; [now exists post | discriminate].
  - rewrite orb_true_iff, prefix_iff, IH. split.
    + intros [[p Hp] | [pre [post Hp]]].
      * now exists EmptyString, p.
      * exists (String d pre), post. simpl. now rewrite Hp.
    + intros [[|x pre] [post Hp]].
      * left. now exists post.
      * right. exists pre, post. simpl in Hp. congruence.
Qed.

Lemma contains_refl (s : string) : PyStr.contains s s = true.
Proof.
  apply contains_iff. exists EmptyString, EmptyString. simpl.
  induction s as [|c s IH]; simpl; congruence.
Qed.

Lemma occurs_in_app_r (s pre h : string) :
  PyStr.occurs_in s h -> PyStr.occurs_in s (pre ++ h).
Proof.
  intros [a [b ->]]. exists (pre ++ a), b. now rewrite string_app_assoc.
Qed.

Lemma occurs_in_app_l (s h post : string) :
  PyStr.occurs_in s h -> PyStr.occurs_in s (h ++ post).
Proof.
  intros [a [b ->]]. exists a, (b ++ post). now rewrite !string_app_assoc.
Qed.

Lemma occurs_in_self (s : string) : PyStr.occurs_in s s.
Proof. apply contains_iff, contains_refl. Qed.

(** Every element of a list has its [repr] in the [repr] of the list. *)
Lemma occurs_in_join (x : string) (l : list string) :
  In x l -> PyStr.occurs_in x (PyStr.join_comma l).
Proof.
  induction l as [|y l IH]; [intros [] |].
  intros [->|Hin].
  - destruct l as [|z l]; [apply occurs_in_self |].
    change (PyStr.join_comma (x :: z :: l))
      with (x ++ ", " ++ PyStr.join_comma (z :: l)).
    apply occurs_in_app_l, occurs_in_self.
  - destruct l as [|z l]; [destruct Hin |].
    change (PyStr.join_comma (y :: z :: l))
      with (y ++ ", " ++ PyStr.join_comma (z :: l)).
    apply occurs_in_app_r. apply (occurs_in_app_r x ", "). now apply IH.
Qed.

Lemma occurs_in_repr_list (x : string) (l : list string) :
  In x l -> PyStr.occurs_in (repr x) (PyStr.repr_list repr l).
Proof.
  intros Hin. unfold PyStr.repr_list.
  apply (occurs_in_app_r _ "["), occurs_in_app_l, occurs_in_join.
  now apply in_map.
Qed.

End StringFacts.

Section FindFacts.

Context {A : Type}.

(** [find] returns the first element, in order, on which the test holds. *)
Lemma find_first (f : A -> bool) (l : list A) (e : A) :
  find f l = Some e <-> first_with (fun x => f x = true) l e.
Proof.
  unfold first_with. induction l as [|x l IH]; simpl.
  - split; [discriminate | intros [[|? ?] [? [? _]]]; discriminate].
  - destruct (f x) eqn:Hx.
    + split.
      * intros [= ->]. exists [], l. repeat split; [assumption | intros ? []].
      * intros [[|y pre] [post [Hl [He Hpre]]]]; simpl in Hl.
        -- congruence.
        -- injection Hl as -> _. exfalso. apply (Hpre y); [now left | assumption].
    + rewrite IH. split.
      * intros [pre [post [-> [He Hpre]]]]. exists (x :: pre), post.
        repeat split; [assumption |]. intros y [<-|Hy]; [congruence | now apply Hpre].
      * intros [[|y pre] [post [Hl [He Hpre]]]]; simpl in Hl.
        -- injection Hl as <- _. congruence.
        -- injection Hl as _ ->. exists pre, post.
           repeat split; [assumption |]. intros z Hz. apply Hpre. now right.
Qed.

Lemma find_none_iff (f : A -> bool) (l : list A) :
  find f l = None <-> forall x, In x l -> f x = false.
Proof.
  split; [apply find_none |].
  induction l as [|x l IH]; simpl; [reflexivity |]. intros H.
  rewrite (H x (or_introl eq_refl)). apply IH. intros y Hy. apply H. now right.
Qed.

Lemma find_agree (f g : A -> bool) (l : list A) :
  (forall x, In x l -> f x = g x) -> find f l = find g l.
Proof.
  induction l as [|x l IH]; intros H; [reflexivity |]. cbn [find].
  rewrite <- (H x (or_introl eq_refl)), IH; [reflexivity |].
  intros y Hy. apply H. now right.
Qed.

Lemma first_with_ext (P Q : A -> Prop) (l : list A) (e : A) :
  (forall x, P x <-> Q x) -> first_with P l e -> first_with Q l e.
Proof.
  intros HPQ [pre [post [Hl [He Hpre]]]]. exists pre, post.
  repeat split; [assumption | now apply HPQ |].
  intros x Hx HQ. apply (Hpre x Hx). now apply HPQ.
Qed.

Lemma first_with_unique (P : A -> Prop) (l : list A) (e e' : A) :
  first_with P l e -> first_with P l e' -> e = e'.
Proof.
  intros [p1 [q1 [H1 [He1 Hp1]]]] [p2 [q2 [H2 [He2 Hp2]]]]. subst l.
  revert p2 H2 Hp2. induction p1 as [|x p1 IH]; intros [|y p2] H2 Hp2; simpl in H2.
  - congruence.
  - injection H2 as -> _. exfalso. apply (Hp2 y); [now left | assumption].
  - injection H2 as -> _. exfalso. apply (Hp1 e'); [now left | assumption].
  - injection H2 as _ H2. apply (IH (fun z Hz => Hp1 z (or_intror Hz)) p2 H2).
    intros z Hz. apply Hp2. now right.
Qed.

End FindFacts.

(** ** Traces *)

Section TraceFacts.

Lemma requests_of_app (a b : list Event) :
  requests_of (a ++ b) = (requests_of a ++ requests_of b)%list.
Proof. apply filter_app. Qed.

Lemma sleeps_app (a b : list Event) :
  sleeps (a ++ b) = (sleeps a ++ sleeps b)%list.
Proof.
  induction a as [|e a IH]; [reflexivity |].
  destruct e; cbn [sleeps app]; now rewrite IH.
Qed.

Lemma requests_of_lines (l : list Item) : requests_of (endpoint_lines l) = [].
Proof. induction l; [reflexivity | assumption]. Qed.

Lemma sleeps_lines (l : list Item) : sleeps (endpoint_lines l) = [].
Proof. induction l; [reflexivity | assumption]. Qed.

Lemma for_each_print (l : list Item) (w : World) :
  for_each l print_endpoint w = (Return tt, logs (endpoint_lines l) w).
Proof.
  revert w. induction l as [|x l IH]; intros w; cbn [for_each endpoint_lines map].
  - unfold ret, logs. rewrite app_nil_r. now destruct w.
  - unfold bind. unfold print_endpoint at 1. unfold print. rewrite IH.
    unfold logs, log, endpoint_lines. cbn [clock served trace].
    now rewrite <- app_assoc.
Qed.

End TraceFacts.

Ltac run_monad :=
  unfold bind, print, requests_get, requests_post, getToken, time_time, time_sleep,
    raise, ret, after_request, log, logs, outcome, final;
  cbn [fst snd clock served trace].

Ltac read_trace :=
  repeat rewrite ?requests_of_app, ?sleeps_app, ?requests_of_lines, ?sleeps_lines;
  cbn [requests_of filter is_request sleeps app];
  rewrite ?app_nil_r, <- ?app_assoc.

(** ** The resolver, path by path *)

Section ResolverPaths.

Variable srv : Backend.
Variables ws name tok : string.
Variable w : World.

Let r0 := respond srv (served w).
Let r1 := respond srv (S (served w)).
Let r2 := respond srv (S (S (served w))).
Let run := get_sql_endpoint_for_lakehouse srv ws name tok w.

Lemma lakehouse_present (l : list Item) :
  (exists lh, In lh l /\ displayName lh = name) ->
  exists lh, find (names_lakehouse name) l = Some lh.
Proof.
  intros [lh [Hin Hname]].
  destruct (find (names_lakehouse name) l) as [x|] eqn:E; [now exists x |].
  apply (find_none _ _ E) in Hin. unfold names_lakehouse in Hin.
  rewrite Hname, String.eqb_refl in Hin. discriminate.
Qed.

Lemma resolver_listing_failed :
  status_code r0 <> 200 ->
  outcome run = Raised (LakehousesListFailed (status_code r0) (text r0)).
Proof.
  intros H0. apply Z.eqb_neq in H0.
  subst run. unfold get_sql_endpoint_for_lakehouse.
  run_monad. fold r0. rewrite H0. reflexivity.
Qed.

Lemma resolver_not_found :
  status_code r0 = 200 ->
  find (names_lakehouse name) (value_or_empty r0) = None ->
  outcome run = Raised (NotFound name (map displayName (value_or_empty r0)))
  /\ served (final run) = S (served w).
Proof.
  intros H0 Hlh. apply Z.eqb_eq in H0.
  subst run. unfold get_sql_endpoint_for_lakehouse.
  run_monad. fold r0. rewrite H0. cbn [negb]. rewrite Hlh.
  run_monad. split; reflexivity.
Qed.

Lemma resolver_items_failed (lh : Item) :
  status_code r0 = 200 ->
  find (names_lakehouse name) (value_or_empty r0) = Some lh ->
  status_code r1 <> 200 ->
  status_code r2 <> 200 ->
  outcome run = Raised (ItemsListFailed (status_code r2) (text r2))
  /\ requests_of (trace (final run)) =
       (requests_of (trace w)
        ++ [EvGet (api_root ++ ws ++ "/lakehouses");
            EvGet (api_root ++ ws ++ "/sqlEndpoints");
            EvGet (api_root ++ ws ++ "/items")])%list.
Proof.
  intros H0 Hlh H1 H2.
  apply Z.eqb_neq in H1, H2. apply Z.eqb_eq in H0.
  subst run. unfold get_sql_endpoint_for_lakehouse.
  run_monad. fold r0. rewrite H0. cbn [negb]. rewrite Hlh.
  run_monad. fold r1. rewrite H1. cbn [negb].
  run_monad. fold r2. rewrite H2. cbn [negb].
  run_monad. split; read_trace; reflexivity.
Qed.

Lemma resolver_items_path (lh : Item) :
  let candidates := filter is_sql_endpoint (value_or_empty r2) in
  status_code r0 = 200 ->
  find (names_lakehouse name) (value_or_empty r0) = Some lh ->
  status_code r1 <> 200 ->
  status_code r2 = 200 ->
  outcome run =
    match search_items_path name candidates with
    | Some e => Return (id e)
    | None => Raised (NoMatchingEndpoint true name (map displayName candidates))
    end
  /\ served (final run) = S (S (S (served w)))
  /\ requests_of (trace (final run)) =
       (requests_of (trace w)
        ++ [EvGet (api_root ++ ws ++ "/lakehouses");
            EvGet (api_root ++ ws ++ "/sqlEndpoints");
            EvGet (api_root ++ ws ++ "/items")])%list
  /\ sleeps (trace (final run)) = sleeps (trace w).
Proof.
  intros candidates H0 Hlh H1 H2.
  apply Z.eqb_neq in H1. apply Z.eqb_eq in H0, H2.
  subst run. unfold get_sql_endpoint_for_lakehouse.
  run_monad. fold r0. rewrite H0. cbn [negb]. rewrite Hlh.
  run_monad. fold r1. rewrite H1. cbn [negb].
  run_monad. fold r2. rewrite H2. cbn [negb]. fold candidates.
  run_monad. rewrite for_each_print.
  destruct (search_items_path name candidates) as [e|]; run_monad.
  all: repeat split; read_trace; reflexivity.
Qed.

Lemma resolver_direct_path (lh : Item) :
  let candidates := value_or_empty r1 in
  status_code r0 = 200 ->
  find (names_lakehouse name) (value_or_empty r0) = Some lh ->
  status_code r1 = 200 ->
  outcome run =
    match search_direct_path name candidates with
    | Some e => Return (id e)
    | None => Raised (NoMatchingEndpoint false name (map displayName candidates))
    end
  /\ served (final run) = S (S (served w))
  /\ requests_of (trace (final run)) =
       (requests_of (trace w)
        ++ [EvGet (api_root ++ ws ++ "/lakehouses");
            EvGet (api_root ++ ws ++ "/sqlEndpoints")])%list
  /\ sleeps (trace (final run)) = sleeps (trace w).
Proof.
  intros candidates H0 Hlh H1.
  apply Z.eqb_eq in H0, H1.
  subst run. unfold get_sql_endpoint_for_lakehouse.
  run_monad. fold r0. rewrite H0. cbn [negb]. rewrite Hlh.
  run_monad. fold r1. rewrite H1. cbn [negb]. fold candidates.
  run_monad. rewrite for_each_print.
  destruct (search_direct_path name candidates) as [e|]; run_monad.
  all: repeat split; read_trace; reflexivity.
Qed.

(** Once the lakehouse is found its identifier is printed, whatever
    happens afterwards. *)
Lemma resolver_found_trace (lh : Item) :
  status_code r0 = 200 ->
  find (names_lakehouse name) (value_or_empty r0) = Some lh ->
  exists rest,
    trace (final run) =
      (trace w
       ++ [EvPrint ("Looking for lakehouse: " ++ name);
           EvGet (api_root ++ ws ++ "/lakehouses");
           EvPrint ("Found lakehouse '" ++ name ++ "' with ID: " ++ id lh)]
       ++ rest)%list.
Proof.
  intros H0 Hlh. apply Z.eqb_eq in H0.
  subst run. unfold get_sql_endpoint_for_lakehouse.
  run_monad. fold r0. rewrite H0. cbn [negb]. rewrite Hlh.
  run_monad. fold r1.
  destruct (status_code r1 =? 200); cbn [negb]; run_monad.
  - rewrite for_each_print.
    destruct (search_direct_path name (value_or_empty r1)); run_monad;
      rewrite <- ?app_assoc; cbn [app]; eexists; reflexivity.
  - fold r2. destruct (status_code r2 =? 200); cbn [negb]; run_monad.
    + rewrite for_each_print.
      destruct (search_items_path name _); run_monad;
        rewrite <- ?app_assoc; cbn [app]; eexists; reflexivity.
    + rewrite <- ?app_assoc; cbn [app]; eexists; reflexivity.
Qed.

(** The resolver has no loop that could fail to end. *)
Lemma resolver_total : outcome run <> OutOfFuel.
Proof.
  subst run. unfold get_sql_endpoint_for_lakehouse.
  run_monad. fold r0.
  destruct (status_code r0 =? 200); cbn [negb]; [| discriminate].
  destruct (find (names_lakehouse name) (value_or_empty r0)); [| discriminate].
  run_monad. fold r1.
  destruct (status_code r1 =? 200); cbn [negb]; run_monad.
  - rewrite for_each_print.
    destruct (search_direct_path name (value_or_empty r1)); discriminate.
  - fold r2. destruct (status_code r2 =? 200); cbn [negb]; run_monad.
    + rewrite for_each_print. destruct (search_items_path name _); discriminate.
    + discriminate.
Qed.

End ResolverPaths.

(** ** The loops' conditions against the rules of the specification *)

Section Rules.

Variable name : string.

Lemma names_lakehouse_iff (x : Item) :
  names_lakehouse name x = true <-> displayName x = name.
Proof. unfold names_lakehouse. apply String.eqb_eq. Qed.

Lemma marker_match_iff (e : Item) : marker_match name e = true <-> rule_a name e.
Proof.
  unfold marker_match, rule_a, name_within, has_marker.
  now rewrite andb_true_iff, orb_true_iff, !contains_iff.
Qed.

Lemma exact_match_iff (e : Item) : exact_match name e = true <-> rule_b name e.
Proof. unfold exact_match, rule_b. apply String.eqb_eq. Qed.

Lemma rule_b_within (e : Item) : rule_b name e -> name_within name e.
Proof.
  unfold rule_b, name_within. intros ->. apply occurs_in_self.
Qed.

(** The second disjunct of the direct path's condition adds nothing. *)
Lemma relaxed_match_iff (e : Item) :
  relaxed_match name e = true <-> name_within name e.
Proof.
  unfold relaxed_match. rewrite orb_true_iff, contains_iff. split.
  - intros [H | H]; [assumption |].
    apply rule_b_within. now apply String.eqb_eq.
  - now left.
Qed.

Lemma marker_match_none (l : list Item) :
  (forall x, In x l -> ~ rule_a name x) -> find (marker_match name) l = None.
Proof.
  intros H. apply find_none_iff. intros x Hx.
  destruct (marker_match name x) eqn:E; [| reflexivity].
  exfalso. apply (H x Hx). now apply marker_match_iff.
Qed.

Lemma exact_match_none (l : list Item) :
  (forall x, In x l -> ~ rule_b name x) -> find (exact_match name) l = None.
Proof.
  intros H. apply find_none_iff. intros x Hx.
  destruct (exact_match name x) eqn:E; [| reflexivity].
  exfalso. apply (H x Hx). now apply exact_match_iff.
Qed.

Lemma relaxed_match_none (l : list Item) :
  (forall x, In x l -> ~ name_within name x) -> find (relaxed_match name) l = None.
Proof.
  intros H. apply find_none_iff. intros x Hx.
  destruct (relaxed_match name x) eqn:E; [| reflexivity].
  exfalso. apply (H x Hx). now apply relaxed_match_iff.
Qed.

Lemma find_marker_first (l : list Item) (e : Item) :
  first_with (rule_a name) l e -> find (marker_match name) l = Some e.
Proof.
  intros H. apply find_first. revert H. apply first_with_ext.
  intros x. symmetry. apply marker_match_iff.
Qed.

Lemma find_exact_first (l : list Item) (e : Item) :
  first_with (rule_b name) l e -> find (exact_match name) l = Some e.
Proof.
  intros H. apply find_first. revert H. apply first_with_ext.
  intros x. symmetry. apply exact_match_iff.
Qed.

Lemma find_relaxed_first (l : list Item) (e : Item) :
  first_with (name_within name) l e -> find (relaxed_match name) l = Some e.
Proof.
  intros H. apply find_first. revert H. apply first_with_ext.
  intros x. symmetry. apply relaxed_match_iff.
Qed.

(** What the two loops of the items path find. *)
Lemma search_items_path_some (l : list Item) (e : Item) :
  search_items_path name l = Some e ->
  first_with (rule_a name) l e
  \/ ((forall x, In x l -> ~ rule_a name x) /\ first_with (rule_b name) l e).
Proof.
  unfold search_items_path.
  destruct (find (marker_match name) l) as [x|] eqn:Ea.
  - intros [= ->]. left. apply find_first in Ea. revert Ea.
    apply first_with_ext. apply marker_match_iff.
  - intros Eb. right. split.
    + intros x Hx Hr. apply marker_match_iff in Hr.
      rewrite (find_none _ _ Ea x Hx) in Hr. discriminate.
    + apply find_first in Eb. revert Eb.
      apply first_with_ext. apply exact_match_iff.
Qed.

Lemma search_items_path_none (l : list Item) :
  search_items_path name l = None <->
  forall x, In x l -> ~ plausible_items name x.
Proof.
  unfold search_items_path, plausible_items. split.
  - destruct (find (marker_match name) l) as [x|] eqn:Ea; [discriminate |].
    intros Eb x Hx [Hr | Hr].
    + apply marker_match_iff in Hr. rewrite (find_none _ _ Ea x Hx) in Hr.
      discriminate.
    + apply exact_match_iff in Hr. rewrite (find_none _ _ Eb x Hx) in Hr.
      discriminate.
  - intros H. rewrite marker_match_none, exact_match_none; [reflexivity | |].
    + intros x Hx Hr. apply (H x Hx). now right.
    + intros x Hx Hr. apply (H x Hx). now left.
Qed.

Lemma search_direct_path_none (l : list Item) :
  search_direct_path name l = None <->
  forall x, In x l -> ~ plausible_direct name x.
Proof.
  unfold search_direct_path, plausible_direct. split.
  - intros E x Hx Hr. apply relaxed_match_iff in Hr.
    rewrite (find_none _ _ E x Hx) in Hr. discriminate.
  - apply relaxed_match_none.
Qed.

Lemma first_with_in {A} (P : A -> Prop) (l : list A) (e : A) :
  first_with P l e -> In e l /\ P e.
Proof.
  intros [pre [post [-> [He _]]]]. split; [| assumption].
  apply in_or_app. right. now left.
Qed.

End Rules.

(** ** The resolver against the specification *)

(** C1. On the items (fallback) path the name-match heuristic is applied
    in strict priority order: the first endpoint, in listing order, whose
    display name contains the resource name and a marker token (letter case
    ignored) is selected; only when no endpoint passes that rule is the
    first endpoint whose display name equals the resource name (letter case
    ignored) selected.  With endpoints "foo - SQL analytics endpoint" and
    "foo", and resource name "foo", the first one is selected ([lower]
    being, on ASCII texts, the lowering of the letters A to Z). *)
Theorem items_path_priority (srv : Backend) (ws name tok : string) (w : World) :
  let r0 := respond srv (served w) in
  let r1 := respond srv (S (served w)) in
  let r2 := respond srv (S (S (served w))) in
  let run := get_sql_endpoint_for_lakehouse srv ws name tok w in
  let endpoints := filter is_sql_endpoint (value_or_empty r2) in
  status_code r0 = 200 ->
  (exists lh, In lh (value_or_empty r0) /\ displayName lh = name) ->
  status_code r1 <> 200 ->
  status_code r2 = 200 ->
  (forall e, first_with (rule_a name) endpoints e -> outcome run = Return (id e))
  /\ ((forall x, In x endpoints -> ~ rule_a name x) ->
      forall e, first_with (rule_b name) endpoints e -> outcome run = Return (id e))
  /\ ((forall s, PyStr.is_ascii s = true -> lower s = PyStr.ascii_lower s) ->
      forall i1 i2 t1 t2,
        name = "foo" ->
        endpoints =
          [ {| id := i1; displayName := "foo - SQL analytics endpoint"; type := t1 |};
            {| id := i2; displayName := "foo"; type := t2 |} ] ->
        outcome run = Return i1).
Proof.
  intros r0 r1 r2 run endpoints H0 Hlh H1 H2.
  destruct (lakehouse_present name _ Hlh) as [lh Hfind].
  destruct (resolver_items_path srv ws name tok w lh H0 Hfind H1 H2) as [Hout _].
  fold r2 in Hout. fold endpoints in Hout. fold run in Hout.
  assert (Ha : forall e, first_with (rule_a name) endpoints e ->
                         outcome run = Return (id e)).
  { intros e He. rewrite Hout. unfold search_items_path.
    now rewrite (find_marker_first name _ _ He). }
  split; [exact Ha | split].
  - intros Hnone e He. rewrite Hout. unfold search_items_path.
    rewrite (marker_match_none name _ Hnone).
    now rewrite (find_exact_first name _ _ He).
  - intros Hascii i1 i2 t1 t2 Hname Heps.
    apply (Ha {| id := i1; displayName := "foo - SQL analytics endpoint"; type := t1 |}).
    rewrite Heps, Hname. exists [], [ {| id := i2; displayName := "foo"; type := t2 |} ].
    split; [reflexivity | split; [| intros x []]].
    apply marker_match_iff. unfold marker_match. cbn [displayName].
    rewrite !Hascii by reflexivity. reflexivity.
Qed.

(** C7. On the direct path (the endpoint listing answered 200) the
    relaxed rule applies: the first endpoint, in listing order, whose
    display name contains the resource name (letter case ignored, no marker
    token asked for) is selected; trying equality of the names after it, as
    the specification words it, selects the same endpoint. *)
Theorem direct_path_relaxed (srv : Backend) (ws name tok : string) (w : World) :
  let r0 := respond srv (served w) in
  let r1 := respond srv (S (served w)) in
  let run := get_sql_endpoint_for_lakehouse srv ws name tok w in
  let endpoints := value_or_empty r1 in
  status_code r0 = 200 ->
  (exists lh, In lh (value_or_empty r0) /\ displayName lh = name) ->
  status_code r1 = 200 ->
  (forall e, first_with (name_within name) endpoints e -> outcome run = Return (id e))
  /\ ((forall x, In x endpoints -> ~ name_within name x) ->
      outcome run = Raised (NoMatchingEndpoint false name (map displayName endpoints)))
  /\ outcome run =
       match spec_direct_selection name endpoints with
       | Some e => Return (id e)
       | None => Raised (NoMatchingEndpoint false name (map displayName endpoints))
       end.
Proof.
  intros r0 r1 run endpoints H0 Hlh H1.
  destruct (lakehouse_present name _ Hlh) as [lh Hfind].
  destruct (resolver_direct_path srv ws name tok w lh H0 Hfind H1) as [Hout _].
  fold r1 in Hout. fold endpoints in Hout. fold run in Hout.
  split; [| split].
  - intros e He. rewrite Hout. unfold search_direct_path.
    now rewrite (find_relaxed_first name _ _ He).
  - intros Hnone. rewrite Hout. unfold search_direct_path.
    now rewrite (relaxed_match_none name _ Hnone).
  - rewrite Hout. unfold search_direct_path, spec_direct_selection.
    destruct (find (relaxed_match name) endpoints) as [e|] eqn:E.
    + apply find_first in E.
      apply (first_with_ext _ (name_within name)) in E;
        [| apply relaxed_match_iff].
      apply (first_with_ext _ (fun x => PyStr.contains (lower name)
                                          (lower (displayName x)) = true)) in E.
      * apply find_first in E. now rewrite E.
      * intros x. symmetry. apply contains_iff.
    + assert (Hc : find (fun e => PyStr.contains (lower name)
                                    (lower (displayName e))) endpoints = None).
      { apply find_none_iff. intros x Hx.
        pose proof (find_none _ _ E x Hx) as Hr. unfold relaxed_match in Hr.
        now apply orb_false_iff in Hr. }
      assert (Hq : find (fun e => String.eqb (lower (displayName e))
                                    (lower name)) endpoints = None).
      { apply find_none_iff. intros x Hx.
        pose proof (find_none _ _ E x Hx) as Hr. unfold relaxed_match in Hr.
        now apply orb_false_iff in Hr. }
      now rewrite Hc, Hq.
Qed.

(** Letter case is whatever [lower] makes of it: a display name equal to
    the resource name after lowering is found on the direct path, be the
    letters ASCII or not. *)
Lemma direct_path_equal_after_lower (srv : Backend) (ws name tok : string)
    (w : World) (e : Item) :
  status_code (respond srv (served w)) = 200 ->
  (exists lh, In lh (value_or_empty (respond srv (served w)))
              /\ displayName lh = name) ->
  status_code (respond srv (S (served w))) = 200 ->
  value_or_empty (respond srv (S (served w))) = [e] ->
  lower (displayName e) = lower name ->
  outcome (get_sql_endpoint_for_lakehouse srv ws name tok w) = Return (id e).
Proof.
  intros H0 Hlh H1 Hl He.
  destruct (lakehouse_present name _ Hlh) as [lh Hfind].
  destruct (resolver_direct_path srv ws name tok w lh H0 Hfind H1) as [-> _].
  rewrite Hl. unfold search_direct_path. cbn [find].
  now rewrite (proj2 (relaxed_match_iff name e) (rule_b_within name e He)).
Qed.

Lemma is_sql_endpoint_iff (i : Item) :
  is_sql_endpoint i = true <-> type i = Some "SQLEndpoint".
Proof.
  unfold is_sql_endpoint. destruct (type i) as [t|].
  - rewrite String.eqb_eq. split; congruence.
  - split; discriminate.
Qed.

(** A lakehouse that was found is not reported missing afterwards. *)
Lemma resolver_found_outcome (srv : Backend) (ws name tok : string) (w : World)
    (lh : Item) :
  status_code (respond srv (served w)) = 200 ->
  find (names_lakehouse name) (value_or_empty (respond srv (served w))) = Some lh ->
  forall n l,
    outcome (get_sql_endpoint_for_lakehouse srv ws name tok w) <> Raised (NotFound n l).
Proof.
  intros H0 Hlh n l. apply Z.eqb_eq in H0.
  unfold get_sql_endpoint_for_lakehouse.
  run_monad. rewrite H0. cbn [negb]. rewrite Hlh. run_monad.
  destruct (status_code (respond srv (S (served w))) =? 200); cbn [negb]; run_monad.
  - rewrite for_each_print.
    destruct (search_direct_path name _); discriminate.
  - destruct (status_code (respond srv (S (S (served w)))) =? 200);
      cbn [negb]; run_monad.
    + rewrite for_each_print. destruct (search_items_path name _); discriminate.
    + discriminate.
Qed.

(** After a direct listing that did not answer 200 the items listing is
    requested, once, whatever it answers. *)
Lemma resolver_items_requested (srv : Backend) (ws name tok : string) (w : World)
    (lh : Item) :
  status_code (respond srv (served w)) = 200 ->
  find (names_lakehouse name) (value_or_empty (respond srv (served w))) = Some lh ->
  status_code (respond srv (S (served w))) <> 200 ->
  requests_of (trace (final (get_sql_endpoint_for_lakehouse srv ws name tok w))) =
    (requests_of (trace w)
     ++ [EvGet (api_root ++ ws ++ "/lakehouses");
         EvGet (api_root ++ ws ++ "/sqlEndpoints");
         EvGet (api_root ++ ws ++ "/items")])%list.
Proof.
  intros H0 Hfind H1.
  destruct (Z.eq_dec (status_code (respond srv (S (S (served w))))) 200) as [H2 | H2].
  - apply (resolver_items_path srv ws name tok w lh H0 Hfind H1 H2).
  - apply (resolver_items_failed srv ws name tok w lh H0 Hfind H1 H2).
Qed.

(** C3. From the listing of storage resources the first one whose
    displayName is exactly the resource name (case-sensitive) is selected,
    its identifier being the one reported; when no displayName equals the
    resource name the resolution fails NotFound, and the message of the
    failure lists every display name of the listing. *)
Theorem lakehouse_lookup (srv : Backend) (ws name tok : string) (w : World) :
  let r0 := respond srv (served w) in
  let run := get_sql_endpoint_for_lakehouse srv ws name tok w in
  let lakehouses := value_or_empty r0 in
  status_code r0 = 200 ->
  (forall lh,
     first_with (fun x => displayName x = name) lakehouses lh ->
     (exists rest,
        trace (final run) =
          (trace w
           ++ [EvPrint ("Looking for lakehouse: " ++ name);
               EvGet (api_root ++ ws ++ "/lakehouses");
               EvPrint ("Found lakehouse '" ++ name ++ "' with ID: " ++ id lh)]
           ++ rest)%list)
     /\ forall n l, outcome run <> Raised (NotFound n l))
  /\ ((forall x, In x lakehouses -> displayName x <> name) ->
      let failure := NotFound name (map displayName lakehouses) in
      outcome run = Raised failure
      /\ message failure =
           "Lakehouse '" ++ name ++ "' not found. Available: "
           ++ PyStr.repr_list repr (map displayName lakehouses)
      /\ forall x, In x lakehouses ->
           PyStr.occurs_in (repr (displayName x)) (message failure)).
Proof.
  intros r0 run lakehouses H0. split.
  - intros lh Hfirst.
    assert (Hfind : find (names_lakehouse name) lakehouses = Some lh).
    { apply find_first. revert Hfirst. apply first_with_ext.
      intros x. symmetry. apply names_lakehouse_iff. }
    split.
    + apply (resolver_found_trace srv ws name tok w lh H0 Hfind).
    + apply (resolver_found_outcome srv ws name tok w lh H0 Hfind).
  - intros Hnone failure.
    assert (Hfind : find (names_lakehouse name) lakehouses = None).
    { apply find_none_iff. intros x Hx.
      destruct (names_lakehouse name x) eqn:E; [| reflexivity].
      apply names_lakehouse_iff in E. now apply Hnone in Hx. }
    split; [| split].
    + apply (resolver_not_found srv ws name tok w H0 Hfind).
    + reflexivity.
    + intros x Hx. unfold failure, message.
      apply (occurs_in_app_r _ "Lakehouse '"), occurs_in_app_r.
      apply (occurs_in_app_r _ "' not found. Available: ").
      apply occurs_in_repr_list. now apply in_map.
Qed.

(** C8. A direct endpoint listing that does not answer 200 is not fatal:
    the items listing of the workspace is requested next; its items are
    filtered to those whose type is SQLEndpoint, and the name-match
    heuristic runs on the filtered list: rule (a) first, rule (b) when no
    candidate passes rule (a), failure when no candidate passes either, so
    that only an item of that type can be selected. *)
Theorem direct_failure_falls_back (srv : Backend) (ws name tok : string) (w : World) :
  let r0 := respond srv (served w) in
  let r1 := respond srv (S (served w)) in
  let r2 := respond srv (S (S (served w))) in
  let run := get_sql_endpoint_for_lakehouse srv ws name tok w in
  let items := value_or_empty r2 in
  let candidates := filter is_sql_endpoint items in
  status_code r0 = 200 ->
  (exists lh, In lh (value_or_empty r0) /\ displayName lh = name) ->
  status_code r1 <> 200 ->
  requests_of (trace (final run)) =
    (requests_of (trace w)
     ++ [EvGet (api_root ++ ws ++ "/lakehouses");
         EvGet (api_root ++ ws ++ "/sqlEndpoints");
         EvGet (api_root ++ ws ++ "/items")])%list
  /\ (status_code r2 = 200 ->
      (forall x, In x candidates <-> In x items /\ type x = Some "SQLEndpoint")
      /\ (forall e, first_with (rule_a name) candidates e ->
                    outcome run = Return (id e))
      /\ ((forall x, In x candidates -> ~ rule_a name x) ->
          forall e, first_with (rule_b name) candidates e ->
                    outcome run = Return (id e))
      /\ ((forall x, In x candidates -> ~ plausible_items name x) ->
          outcome run
          = Raised (NoMatchingEndpoint true name (map displayName candidates)))
      /\ forall eid,
           outcome run = Return eid ->
           exists e, In e items /\ type e = Some "SQLEndpoint"
                     /\ plausible_items name e /\ id e = eid).
Proof.
  intros r0 r1 r2 run items candidates H0 Hlh H1.
  destruct (lakehouse_present name _ Hlh) as [lh Hfind].
  split; [apply (resolver_items_requested srv ws name tok w lh H0 Hfind H1) |].
  intros H2.
  destruct (resolver_items_path srv ws name tok w lh H0 Hfind H1 H2) as [Hout _].
  fold r2 in Hout. fold items in Hout. fold candidates in Hout. fold run in Hout.
  assert (Hcand : forall x, In x candidates <->
                            In x items /\ type x = Some "SQLEndpoint").
  { intros x. unfold candidates. now rewrite filter_In, is_sql_endpoint_iff. }
  split; [exact Hcand | split; [| split; [| split]]].
  - intros e He. rewrite Hout. unfold search_items_path.
    now rewrite (find_marker_first name _ _ He).
  - intros Hnone e He. rewrite Hout. unfold search_items_path.
    rewrite (marker_match_none name _ Hnone).
    now rewrite (find_exact_first name _ _ He).
  - intros Hnone. apply search_items_path_none in Hnone. now rewrite Hout, Hnone.
  - intros eid Heid. rewrite Hout in Heid.
    destruct (search_items_path name candidates) as [e|] eqn:E; [| discriminate].
    injection Heid as Heid. exists e.
    assert (Hin : In e candidates /\ plausible_items name e).
    { destruct (search_items_path_some name _ _ E) as [Ha | [_ Hb]].
      - apply first_with_in in Ha. split; [apply Ha | left; apply Ha].
      - apply first_with_in in Hb. split; [apply Hb | right; apply Hb]. }
    destruct Hin as [Hin Hpl]. apply Hcand in Hin. destruct Hin as [Hin Hty].
    now repeat split.
Qed.

(** ** Ties, and the two paths compared *)

Section PathsCompared.

Variable name : string.

(** Where every candidate containing the name also has a marker token, the
    loops of the two paths find the same endpoint. *)
Lemma search_paths_agree (l : list Item) :
  (forall x, In x l -> name_within name x -> has_marker x) ->
  search_items_path name l = search_direct_path name l.
Proof.
  intros Hmark. unfold search_items_path, search_direct_path.
  assert (Hsame : find (marker_match name) l = find (relaxed_match name) l).
  { apply find_agree. intros x Hx.
    destruct (relaxed_match name x) eqn:Er.
    - apply marker_match_iff. apply relaxed_match_iff in Er.
      split; [assumption | now apply Hmark].
    - destruct (marker_match name x) eqn:Em; [| reflexivity].
      apply marker_match_iff in Em. destruct Em as [Hin _].
      apply relaxed_match_iff in Hin. congruence. }
  rewrite Hsame.
  destruct (find (relaxed_match name) l) as [e|] eqn:E; [reflexivity |].
  apply exact_match_none. intros x Hx Hb.
  apply rule_b_within, relaxed_match_iff in Hb.
  rewrite (find_none _ _ E x Hx) in Hb. discriminate.
Qed.

(** The search of the direct path reads descriptors only. *)
Lemma search_direct_descriptor (l1 l2 : list Item) :
  map descriptor l1 = map descriptor l2 ->
  option_map descriptor (search_direct_path name l1)
  = option_map descriptor (search_direct_path name l2).
Proof.
  unfold search_direct_path.
  revert l2. induction l1 as [|x l1 IH]; intros [|y l2] Hmap;
    try discriminate; [reflexivity |].
  cbn [map] in Hmap. injection Hmap as Hid Hname Hmap.
  cbn [find]. unfold relaxed_match at 1 3. rewrite Hname.
  destruct (PyStr.contains _ _ || String.eqb _ _).
  - cbn [option_map]. unfold descriptor. now rewrite Hid, Hname.
  - now apply IH.
Qed.

Lemma descriptor_names (l1 l2 : list Item) :
  map descriptor l1 = map descriptor l2 -> map displayName l1 = map displayName l2.
Proof.
  intros H. apply (f_equal (map snd)) in H. now rewrite !map_map in H.
Qed.

Lemma descriptor_lines (l1 l2 : list Item) :
  map descriptor l1 = map descriptor l2 -> endpoint_lines l1 = endpoint_lines l2.
Proof.
  unfold endpoint_lines, endpoint_line.
  revert l2. induction l1 as [|x l1 IH]; intros [|y l2] Hmap;
    try discriminate; [reflexivity |].
  cbn [map] in *. injection Hmap as Hid Hname Hmap.
  rewrite Hid, Hname. f_equal. now apply IH.
Qed.

End PathsCompared.

(** C6, as the code has it.  A resolution returns one endpoint identifier
    or fails.  It fails NoMatchingEndpoint exactly when no candidate is
    plausible; when one or several candidates are plausible it does not
    fail but returns the first match in listing order (on the items path,
    the first match of rule (a), else the first match of rule (b)). *)
Theorem resolution_first_match_wins (srv : Backend) (ws name tok : string) (w : World) :
  let r0 := respond srv (served w) in
  let r1 := respond srv (S (served w)) in
  let r2 := respond srv (S (S (served w))) in
  let run := get_sql_endpoint_for_lakehouse srv ws name tok w in
  status_code r0 = 200 ->
  (exists lh, In lh (value_or_empty r0) /\ displayName lh = name) ->
  (status_code r1 = 200 ->
   let endpoints := value_or_empty r1 in
   ((forall x, In x endpoints -> ~ plausible_direct name x) <->
    outcome run = Raised (NoMatchingEndpoint false name (map displayName endpoints)))
   /\ ((exists x, In x endpoints /\ plausible_direct name x) ->
       exists e, first_with (plausible_direct name) endpoints e
                 /\ outcome run = Return (id e)))
  /\ (status_code r1 <> 200 -> status_code r2 = 200 ->
      let endpoints := filter is_sql_endpoint (value_or_empty r2) in
      ((forall x, In x endpoints -> ~ plausible_items name x) <->
       outcome run = Raised (NoMatchingEndpoint true name (map displayName endpoints)))
      /\ ((exists x, In x endpoints /\ plausible_items name x) ->
          exists e,
            (first_with (rule_a name) endpoints e
             \/ ((forall x, In x endpoints -> ~ rule_a name x)
                 /\ first_with (rule_b name) endpoints e))
            /\ outcome run = Return (id e))).
Proof.
  intros r0 r1 r2 run H0 Hlh.
  destruct (lakehouse_present name _ Hlh) as [lh Hfind].
  split.
  - intros H1 endpoints.
    destruct (resolver_direct_path srv ws name tok w lh H0 Hfind H1) as [Hout _].
    fold r1 in Hout. fold endpoints in Hout. fold run in Hout.
    split; [split |].
    + intros Hnone. apply search_direct_path_none in Hnone. now rewrite Hout, Hnone.
    + intros Hfail. apply search_direct_path_none.
      rewrite Hout in Hfail.
      destruct (search_direct_path name endpoints); [discriminate | reflexivity].
    + intros [x [Hx Hpl]]. rewrite Hout.
      destruct (search_direct_path name endpoints) as [e|] eqn:E.
      * exists e. split; [| reflexivity].
        unfold search_direct_path in E. apply find_first in E. revert E.
        apply first_with_ext. apply relaxed_match_iff.
      * exfalso. apply (proj1 (search_direct_path_none name endpoints) E x Hx Hpl).
  - intros H1 H2 endpoints.
    destruct (resolver_items_path srv ws name tok w lh H0 Hfind H1 H2) as [Hout _].
    fold r2 in Hout. fold endpoints in Hout. fold run in Hout.
    split; [split |].
    + intros Hnone. apply search_items_path_none in Hnone. now rewrite Hout, Hnone.
    + intros Hfail. apply search_items_path_none.
      rewrite Hout in Hfail.
      destruct (search_items_path name endpoints); [discriminate | reflexivity].
    + intros [x [Hx Hpl]]. rewrite Hout.
      destruct (search_items_path name endpoints) as [e|] eqn:E.
      * exists e. split; [| reflexivity]. now apply search_items_path_some.
      * exfalso. apply (proj1 (search_items_path_none name endpoints) E x Hx Hpl).
Qed.

(** The filter of the fallback path keeps the items that the direct
    listing describes. *)
Lemma same_resources_filter (direct items : list Item) :
  same_resources direct items ->
  map descriptor direct = map descriptor (filter is_sql_endpoint items).
Proof.
  induction 1 as [| d direct i items Hty Hid Hname _ IH | direct i items Hty _ IH];
    cbn [filter map].
  - reflexivity.
  - rewrite (proj2 (is_sql_endpoint_iff i) Hty). cbn [map].
    unfold descriptor at 1 3. now rewrite Hid, Hname, IH.
  - destruct (is_sql_endpoint i) eqn:E; [| exact IH].
    apply is_sql_endpoint_iff in E. contradiction.
Qed.

(** C9, as the code has it.  When the direct listing does not answer 200
    the items listing is requested once.  Its candidates are the items of
    type SQLEndpoint; when the direct listing of another run describes the
    same resources, the candidates of the two runs have the same names and
    identifiers in the same order, and the two runs end alike provided
    every candidate whose name contains the resource name also has a marker
    token. *)
Theorem fallback_once_same_candidates
    (direct fallback : Backend) (ws name tok : string) (w : World) :
  let d0 := respond direct (served w) in
  let d1 := respond direct (S (served w)) in
  let f0 := respond fallback (served w) in
  let f1 := respond fallback (S (served w)) in
  let f2 := respond fallback (S (S (served w))) in
  let run_direct := get_sql_endpoint_for_lakehouse direct ws name tok w in
  let run_fallback := get_sql_endpoint_for_lakehouse fallback ws name tok w in
  let listed := value_or_empty d1 in
  let filtered := filter is_sql_endpoint (value_or_empty f2) in
  status_code f0 = 200 ->
  (exists lh, In lh (value_or_empty f0) /\ displayName lh = name) ->
  status_code f1 <> 200 ->
  requests_of (trace (final run_fallback)) =
    (requests_of (trace w)
     ++ [EvGet (api_root ++ ws ++ "/lakehouses");
         EvGet (api_root ++ ws ++ "/sqlEndpoints");
         EvGet (api_root ++ ws ++ "/items")])%list
  /\ (status_code f2 = 200 ->
      status_code d0 = 200 ->
      (exists lh, In lh (value_or_empty d0) /\ displayName lh = name) ->
      status_code d1 = 200 ->
      same_resources listed (value_or_empty f2) ->
      map descriptor filtered = map descriptor listed
      /\ endpoint_lines filtered = endpoint_lines listed
      /\ ((forall x, In x filtered -> name_within name x -> has_marker x) ->
          (forall eid,
             outcome run_fallback = Return eid <-> outcome run_direct = Return eid)
          /\ (outcome run_fallback
                = Raised (NoMatchingEndpoint true name (map displayName filtered))
              <-> outcome run_direct
                    = Raised (NoMatchingEndpoint false name (map displayName listed))))).
Proof.
  intros d0 d1 f0 f1 f2 run_direct run_fallback listed filtered Hf0 Hflh Hf1.
  destruct (lakehouse_present name _ Hflh) as [flh Hffind].
  split.
  - apply (resolver_items_requested fallback ws name tok w flh Hf0 Hffind Hf1).
  - intros Hf2 Hd0 Hdlh Hd1 Hres.
    pose proof (same_resources_filter _ _ Hres) as Hsame.
    fold filtered in Hsame.
    destruct (lakehouse_present name _ Hdlh) as [dlh Hdfind].
    destruct (resolver_items_path fallback ws name tok w flh Hf0 Hffind Hf1 Hf2)
      as [Hfout _].
    destruct (resolver_direct_path direct ws name tok w dlh Hd0 Hdfind Hd1)
      as [Hdout _].
    fold f2 in Hfout. fold filtered in Hfout. fold run_fallback in Hfout.
    fold d1 in Hdout. fold listed in Hdout. fold run_direct in Hdout.
    split; [| split].
    + symmetry. exact Hsame.
    + symmetry. now apply descriptor_lines.
    + intros Hmark.
      rewrite Hfout, Hdout, (search_paths_agree name filtered Hmark).
      rewrite (descriptor_names _ _ Hsame).
      pose proof (search_direct_descriptor name _ _ Hsame) as Hsel.
      destruct (search_direct_path name listed) as [a|];
        destruct (search_direct_path name filtered) as [b|];
        cbn [option_map] in Hsel; try discriminate.
      * injection Hsel as Hid _. rewrite Hid.
        split; [intros eid; split; intros H; exact H |].
        split; discriminate.
      * split; [intros eid; split; discriminate |].
        split; intros _; reflexivity.
Qed.

(** ** The polling loop *)

Section PollLoop.

Variable srv : Backend.
Variable url : string.
Variables start max_s : Z.

Let loop (fuel : nat) : M LoopExit := poll_loop srv fuel url start max_s.

Lemma poll_step_deadline (fuel : nat) (w : World) :
  max_s <= clock w - start ->
  loop (S fuel) w = (Return Fallthrough, w).
Proof.
  intros H. apply Z.ltb_ge in H. unfold loop. cbn [poll_loop].
  run_monad. now rewrite H.
Qed.

Lemma poll_step_done (fuel : nat) (w : World) :
  clock w - start < max_s ->
  status_code (respond srv (served w)) = 200 ->
  loop (S fuel) w
  = (Return (Returned true),
     logs [EvGet url; EvPrint "✅ Refresh completed successfully!"]
       {| clock := clock w + Z.of_nat (latency srv (served w));
          served := S (served w); trace := trace w |}).
Proof.
  intros Ht Hs. apply Z.ltb_lt in Ht. apply Z.eqb_eq in Hs.
  unfold loop. cbn [poll_loop]. run_monad. rewrite Ht. run_monad. rewrite Hs.
  run_monad. now rewrite <- app_assoc.
Qed.

Lemma poll_step_pending (fuel : nat) (w : World) :
  clock w - start < max_s ->
  status_code (respond srv (served w)) = 202 ->
  loop (S fuel) w = loop fuel (pending_round srv url w).
Proof.
  intros Ht Hs. apply Z.ltb_lt in Ht.
  unfold loop. cbn [poll_loop]. run_monad. rewrite Ht. run_monad. rewrite Hs.
  cbn [Z.eqb Pos.eqb]. run_monad. unfold pending_round.
  now rewrite <- !app_assoc.
Qed.

Lemma poll_step_failed (fuel : nat) (w : World) :
  clock w - start < max_s ->
  status_code (respond srv (served w)) <> 200 ->
  status_code (respond srv (served w)) <> 202 ->
  loop (S fuel) w
  = (Raised (PollFailed (status_code (respond srv (served w)))
               (text (respond srv (served w)))),
     logs [EvGet url]
       {| clock := clock w + Z.of_nat (latency srv (served w));
          served := S (served w); trace := trace w |}).
Proof.
  intros Ht H200 H202. apply Z.ltb_lt in Ht. apply Z.eqb_neq in H200, H202.
  unfold loop. cbn [poll_loop]. run_monad. rewrite Ht. run_monad.
  rewrite H200, H202. run_monad. reflexivity.
Qed.

Lemma pending_rounds_served (k : nat) (w : World) :
  served (pending_rounds srv url k w) = (served w + k)%nat.
Proof.
  induction k as [|k IH]; cbn [pending_rounds pending_round served]; lia.
Qed.

Lemma pending_rounds_clock (k : nat) (w : World) :
  clock (pending_rounds srv url k w) = clock w + elapsed_before srv (served w) k.
Proof.
  induction k as [|k IH];
    cbn [pending_rounds pending_round clock elapsed_before]; [lia |].
  rewrite IH, pending_rounds_served. lia.
Qed.

Lemma pending_rounds_requests (k : nat) (w : World) :
  requests_of (trace (pending_rounds srv url k w))
  = (requests_of (trace w) ++ repeat (EvGet url) k)%list.
Proof.
  induction k as [|k IH]; cbn [pending_rounds pending_round trace].
  - now rewrite app_nil_r.
  - read_trace. rewrite IH, <- app_assoc. f_equal.
    change [EvGet url] with (repeat (EvGet url) 1).
    rewrite <- repeat_app. f_equal. lia.
Qed.

Lemma pending_rounds_sleeps (k : nat) (w : World) :
  sleeps (trace (pending_rounds srv url k w))
  = (sleeps (trace w) ++ repeat 30 k)%list.
Proof.
  induction k as [|k IH]; cbn [pending_rounds pending_round trace].
  - now rewrite app_nil_r.
  - read_trace. rewrite IH, <- app_assoc. f_equal.
    change [30] with (repeat 30 1).
    rewrite <- repeat_app. f_equal. lia.
Qed.

Lemma elapsed_before_step (first k : nat) :
  elapsed_before srv first k + 30 <= elapsed_before srv first (S k).
Proof. cbn [elapsed_before]. lia. Qed.

Lemma elapsed_before_mono (first i k : nat) :
  (i <= k)%nat -> elapsed_before srv first i <= elapsed_before srv first k.
Proof.
  induction 1 as [|k Hle IH]; [lia |].
  pose proof (elapsed_before_step first k). lia.
Qed.

Lemma elapsed_before_lower (first k : nat) :
  30 * Z.of_nat k <= elapsed_before srv first k.
Proof.
  induction k as [|k IH]; [cbn; lia |].
  pose proof (elapsed_before_step first k). lia.
Qed.

(** [k] pending polls within the deadline take the loop through [k]
    rounds. *)
Lemma poll_loop_pending (k fuel : nat) (w : World) :
  (forall i, (i < k)%nat -> status_code (respond srv (served w + i)) = 202) ->
  (forall i, (i < k)%nat ->
     clock w - start + elapsed_before srv (served w) i < max_s) ->
  loop (k + fuel) w = loop fuel (pending_rounds srv url k w).
Proof.
  revert fuel. induction k as [|k IH]; intros fuel Hst Hdl; [reflexivity |].
  replace (S k + fuel)%nat with (k + S fuel)%nat by lia.
  rewrite IH by (intros i Hi; (apply Hst || apply Hdl); lia).
  cbn [pending_rounds]. apply poll_step_pending.
  - rewrite pending_rounds_clock. specialize (Hdl k). lia.
  - rewrite pending_rounds_served. apply Hst. lia.
Qed.

(** Polls that stay pending until the deadline end the loop by its
    condition, given fuel for the rounds that fit before the deadline. *)
Lemma poll_loop_deadline (fuel j : nat) (w : World) :
  (forall i, clock w - start + elapsed_before srv (served w) i < max_s ->
             status_code (respond srv (served w + i)) = 202) ->
  (1 <= fuel)%nat ->
  max_s - (clock (pending_rounds srv url j w) - start) <= 30 * Z.of_nat fuel - 30 ->
  exists k, loop fuel (pending_rounds srv url j w)
            = (Return Fallthrough, pending_rounds srv url k w).
Proof.
  intros Hst. revert j. induction fuel as [|fuel IH]; intros j Hf Hfuel; [lia |].
  destruct (Z_lt_le_dec (clock (pending_rounds srv url j w) - start) max_s)
    as [Hlt | Hge].
  - rewrite poll_step_pending; [| assumption |].
    + apply (IH (S j)); [lia |].
      cbn [pending_rounds pending_round clock]. lia.
    + rewrite pending_rounds_served. apply Hst.
      rewrite pending_rounds_clock in Hlt. lia.
  - exists j. now apply poll_step_deadline.
Qed.

(** With that much fuel the loop ends. *)
Lemma poll_loop_total (fuel : nat) (w : World) :
  (1 <= fuel)%nat ->
  max_s - (clock w - start) <= 30 * Z.of_nat fuel - 30 ->
  outcome (loop fuel w) <> OutOfFuel.
Proof.
  revert w. induction fuel as [|fuel IH]; intros w Hf Hfuel; [lia |].
  destruct (Z_lt_le_dec (clock w - start) max_s) as [Hlt | Hge].
  - destruct (Z.eq_dec (status_code (respond srv (served w))) 200) as [H200 | H200].
    { rewrite poll_step_done by assumption. discriminate. }
    destruct (Z.eq_dec (status_code (respond srv (served w))) 202) as [H202 | H202].
    + rewrite poll_step_pending by assumption.
      apply IH; [lia |]. cbn [pending_round clock]. lia.
    + rewrite poll_step_failed by assumption. discriminate.
  - rewrite poll_step_deadline by assumption. discriminate.
Qed.

End PollLoop.

Lemma poll_fuel_enough (max_s : Z) :
  (1 <= poll_fuel max_s)%nat /\ max_s <= 30 * Z.of_nat (poll_fuel max_s) - 30.
Proof.
  unfold poll_fuel. split; [lia |].
  destruct (Z_lt_le_dec max_s 0) as [Hneg | Hpos]; [lia |].
  pose proof (Z.div_mod max_s 30 ltac:(lia)) as Hdiv.
  pose proof (Z.mod_pos_bound max_s 30 ltac:(lia)) as Hmod.
  assert (0 <= max_s / 30) by (apply Z.div_pos; lia).
  rewrite !Nat2Z.inj_succ, Z2Nat.id by assumption. lia.
Qed.

(** ** The trigger and what follows it *)

Section Trigger.

Variable srv : Backend.
Variables ws eid : string.
Variable max : Z.
Variable w : World.

Let trigger := respond srv (served w).
Let run := trigger_and_monitor srv ws eid max w.

Lemma trigger_completed :
  status_code trigger = 200 -> outcome run = Return true /\ only_triggered ws eid w run.
Proof.
  intros H. subst run. unfold only_triggered, trigger_and_monitor.
  run_monad. fold trigger. rewrite H. cbn [Z.eqb Pos.eqb]. run_monad.
  repeat split; read_trace; reflexivity.
Qed.

Lemma trigger_without_location :
  status_code trigger = 202 ->
  truthy (headers_Location trigger) = false ->
  outcome run = Return true /\ only_triggered ws eid w run.
Proof.
  intros H Hloc. subst run. unfold only_triggered, trigger_and_monitor.
  run_monad. fold trigger. rewrite H. cbn [Z.eqb Pos.eqb]. rewrite Hloc.
  cbn [negb]. run_monad. repeat split; read_trace; reflexivity.
Qed.

Lemma trigger_failed :
  status_code trigger <> 200 ->
  status_code trigger <> 202 ->
  outcome run = Raised (TriggerFailed (status_code trigger) (text trigger))
  /\ only_triggered ws eid w run.
Proof.
  intros H200 H202. apply Z.eqb_neq in H200, H202.
  subst run. unfold only_triggered, trigger_and_monitor.
  run_monad. fold trigger. rewrite H200, H202. run_monad.
  repeat split; read_trace; reflexivity.
Qed.

Lemma trigger_monitored (loc : string) :
  status_code trigger = 202 ->
  headers_Location trigger = Some loc ->
  loc <> EmptyString ->
  let entry := loop_entry srv ws eid w in
  run =
    match poll_loop srv (poll_fuel (max * 60)) loc (clock entry) (max * 60) entry with
    | (Return (Returned v), w') => (Return v, w')
    | (Return Fallthrough, w') => (Raised (RefreshTimedOut max), w')
    | (Raised e, w') => (Raised e, w')
    | (OutOfFuel, w') => (OutOfFuel, w')
    end.
Proof.
  intros H Hloc Hne entry. subst run. unfold trigger_and_monitor.
  run_monad. fold trigger. rewrite H. cbn [Z.eqb Pos.eqb]. rewrite Hloc.
  destruct loc as [|c loc]; [contradiction |]. cbn [truthy negb]. run_monad.
  subst entry. unfold loop_entry. fold trigger. rewrite H. cbn [clock].
  rewrite <- !app_assoc. cbn [app].
  destruct (poll_loop _ _ _ _ _ _) as [[[v|]|e|] w']; reflexivity.
Qed.

Lemma loop_entry_facts :
  let entry := loop_entry srv ws eid w in
  served entry = S (served w)
  /\ requests_of (trace entry)
     = (requests_of (trace w) ++ [EvPost (refresh_url ws eid)])%list
  /\ sleeps (trace entry) = sleeps (trace w).
Proof.
  unfold loop_entry. cbn [served trace]. repeat split; read_trace; reflexivity.
Qed.

(** After [k] pending polls within the deadline, a poll answered 200. *)
Lemma monitored_success (loc : string) (k : nat) :
  status_code trigger = 202 ->
  headers_Location trigger = Some loc ->
  loc <> EmptyString ->
  (forall i, (i < k)%nat -> status_code (respond srv (S (served w) + i)) = 202) ->
  elapsed_before srv (S (served w)) k < max * 60 ->
  status_code (respond srv (S (served w) + k)) = 200 ->
  outcome run = Return true
  /\ sleeps (trace (final run)) = (sleeps (trace w) ++ repeat 30 k)%list
  /\ requests_of (trace (final run))
     = (requests_of (trace w)
        ++ EvPost (refresh_url ws eid) :: repeat (EvGet loc) (S k))%list
  /\ trace (final run)
     = (trace (pending_rounds srv loc k (loop_entry srv ws eid w))
        ++ [EvGet loc; EvPrint "✅ Refresh completed successfully!"])%list.
Proof.
  intros H Hloc Hne Hpend Hdl Hdone.
  rewrite (trigger_monitored loc H Hloc Hne). cbv zeta.
  destruct loop_entry_facts as [Hserved [Hreq Hsl]].
  set (entry := loop_entry srv ws eid w) in *.
  assert (Hfuel : exists f, poll_fuel (max * 60) = (k + S f)%nat).
  { pose proof (elapsed_before_lower srv (S (served w)) k).
    exists (poll_fuel (max * 60) - k - 1)%nat. unfold poll_fuel.
    assert (Z.of_nat k <= max * 60 / 30) by (apply Z.div_le_lower_bound; lia).
    lia. }
  destruct Hfuel as [f ->].
  rewrite poll_loop_pending.
  - rewrite poll_step_done.
    + unfold outcome, final, logs. cbn [fst snd trace].
      split; [reflexivity | split; [| split; [| reflexivity]]]; read_trace.
      * now rewrite pending_rounds_sleeps, Hsl.
      * rewrite pending_rounds_requests, Hreq, <- !app_assoc. cbn [app].
        now rewrite <- repeat_cons.
    + rewrite pending_rounds_clock, Hserved. lia.
    + now rewrite pending_rounds_served, Hserved.
  - intros i Hi. rewrite Hserved. now apply Hpend.
  - intros i Hi. rewrite Hserved.
    pose proof (elapsed_before_mono srv (S (served w)) i k ltac:(lia)). lia.
Qed.

(** After [k] pending polls within the deadline, a poll answered neither
    200 nor 202. *)
Lemma monitored_failure (loc : string) (k : nat) :
  status_code trigger = 202 ->
  headers_Location trigger = Some loc ->
  loc <> EmptyString ->
  (forall i, (i < k)%nat -> status_code (respond srv (S (served w) + i)) = 202) ->
  elapsed_before srv (S (served w)) k < max * 60 ->
  status_code (respond srv (S (served w) + k)) <> 200 ->
  status_code (respond srv (S (served w) + k)) <> 202 ->
  outcome run = Raised (PollFailed (status_code (respond srv (S (served w) + k)))
                          (text (respond srv (S (served w) + k))))
  /\ sleeps (trace (final run)) = (sleeps (trace w) ++ repeat 30 k)%list
  /\ requests_of (trace (final run))
     = (requests_of (trace w)
        ++ EvPost (refresh_url ws eid) :: repeat (EvGet loc) (S k))%list.
Proof.
  intros H Hloc Hne Hpend Hdl H200 H202.
  rewrite (trigger_monitored loc H Hloc Hne). cbv zeta.
  destruct loop_entry_facts as [Hserved [Hreq Hsl]].
  set (entry := loop_entry srv ws eid w) in *.
  assert (Hfuel : exists f, poll_fuel (max * 60) = (k + S f)%nat).
  { pose proof (elapsed_before_lower srv (S (served w)) k).
    exists (poll_fuel (max * 60) - k - 1)%nat. unfold poll_fuel.
    assert (Z.of_nat k <= max * 60 / 30) by (apply Z.div_le_lower_bound; lia).
    lia. }
  destruct Hfuel as [f ->].
  rewrite poll_loop_pending.
  - rewrite poll_step_failed.
    + unfold outcome, final, logs. cbn [fst snd trace].
      rewrite pending_rounds_served, Hserved.
      repeat split; read_trace.
      * now rewrite pending_rounds_sleeps, Hsl.
      * rewrite pending_rounds_requests, Hreq, <- !app_assoc. cbn [app].
        now rewrite <- repeat_cons.
    + rewrite pending_rounds_clock, Hserved. lia.
    + now rewrite pending_rounds_served, Hserved.
    + now rewrite pending_rounds_served, Hserved.
  - intros i Hi. rewrite Hserved. now apply Hpend.
  - intros i Hi. rewrite Hserved.
    pose proof (elapsed_before_mono srv (S (served w)) i k ltac:(lia)). lia.
Qed.

(** Polls that stay pending until the deadline. *)
Lemma monitored_timeout (loc : string) :
  status_code trigger = 202 ->
  headers_Location trigger = Some loc ->
  loc <> EmptyString ->
  (forall i, elapsed_before srv (S (served w)) i < max * 60 ->
             status_code (respond srv (S (served w) + i)) = 202) ->
  outcome run = Raised (RefreshTimedOut max)
  /\ exists k,
       sleeps (trace (final run)) = (sleeps (trace w) ++ repeat 30 k)%list
       /\ requests_of (trace (final run))
          = (requests_of (trace w)
             ++ EvPost (refresh_url ws eid) :: repeat (EvGet loc) k)%list.
Proof.
  intros H Hloc Hne Hpend.
  rewrite (trigger_monitored loc H Hloc Hne). cbv zeta.
  destruct loop_entry_facts as [Hserved [Hreq Hsl]].
  set (entry := loop_entry srv ws eid w) in *.
  destruct (poll_fuel_enough (max * 60)) as [Hone Hfuel].
  destruct (poll_loop_deadline srv loc (clock entry) (max * 60)
              (poll_fuel (max * 60)) 0 entry) as [k Hk].
  - intros i Hi. rewrite Hserved in *. apply Hpend. lia.
  - exact Hone.
  - cbn [pending_rounds]. lia.
  - cbn [pending_rounds] in Hk. rewrite Hk.
    unfold outcome, final. cbn [fst snd]. split; [reflexivity |].
    exists k. rewrite pending_rounds_sleeps, pending_rounds_requests, Hsl, Hreq.
    rewrite <- app_assoc. split; reflexivity.
Qed.

(** A deadline already reached when the loop is entered. *)
Lemma monitored_no_patience (loc : string) :
  status_code trigger = 202 ->
  headers_Location trigger = Some loc ->
  loc <> EmptyString ->
  max <= 0 ->
  outcome run = Raised (RefreshTimedOut max) /\ only_triggered ws eid w run.
Proof.
  intros H Hloc Hne Hmax.
  rewrite (trigger_monitored loc H Hloc Hne). cbv zeta.
  destruct loop_entry_facts as [Hserved [Hreq Hsl]].
  set (entry := loop_entry srv ws eid w) in *.
  unfold poll_fuel. rewrite poll_step_deadline by lia.
  unfold only_triggered, outcome, final. cbn [fst snd]. now repeat split.
Qed.

Lemma trigger_total : outcome run <> OutOfFuel.
Proof.
  destruct (Z.eq_dec (status_code trigger) 200) as [H200 | H200].
  { destruct (trigger_completed H200) as [-> _]. discriminate. }
  destruct (Z.eq_dec (status_code trigger) 202) as [H202 | H202].
  - destruct (truthy (headers_Location trigger)) eqn:Hloc.
    + destruct (headers_Location trigger) as [[|c loc]|] eqn:El; try discriminate.
      rewrite (trigger_monitored (String c loc) H202 El) by discriminate. cbv zeta.
      destruct (poll_fuel_enough (max * 60)) as [Hone Hfuel].
      pose proof (poll_loop_total srv (String c loc)
                    (clock (loop_entry srv ws eid w)) (max * 60)
                    (poll_fuel (max * 60)) (loop_entry srv ws eid w) Hone
                    ltac:(lia)) as Htot.
      unfold outcome in *.
      destruct (poll_loop srv (poll_fuel (max * 60)) (String c loc)
                  (clock (loop_entry srv ws eid w)) (max * 60)
                  (loop_entry srv ws eid w)) as [[[v|]|e|] w'];
        cbn [fst] in *; congruence.
    + destruct (trigger_without_location H202 Hloc) as [-> _]. discriminate.
  - destruct (trigger_failed H200 H202) as [-> _]. discriminate.
Qed.

End Trigger.

Section WholeRun.

Variable srv : Backend.
Variables name ws : string.
Variable max : Z.
Variable w : World.

(** Once the resolver has returned, the run continues with the trigger. *)
Lemma refresh_after_resolution (eid : string) :
  outcome (resolution srv name ws w) = Return eid ->
  refresh_sql_endpoint_and_wait srv name ws max w
  = trigger_and_monitor srv ws eid max (final (resolution srv name ws w)).
Proof.
  unfold refresh_sql_endpoint_and_wait, resolution, resolver_entry.
  unfold bind at 1 2. unfold getToken, print. unfold log, logs, outcome, final.
  cbn [fst snd clock served trace]. rewrite <- app_assoc. cbn [app].
  unfold bind. destruct (get_sql_endpoint_for_lakehouse _ _ _ _ _) as [[a|e|] w1];
    cbn [fst snd]; intros [= ->]. reflexivity.
Qed.

(** The run always ends: the fuel of the loop is never used up. *)
Theorem refresh_total :
  outcome (refresh_sql_endpoint_and_wait srv name ws max w) <> OutOfFuel.
Proof.
  destruct (outcome (resolution srv name ws w)) as [eid|e|] eqn:E.
  - rewrite (refresh_after_resolution eid E). apply trigger_total.
  - revert E. unfold refresh_sql_endpoint_and_wait, resolution, resolver_entry.
    unfold bind at 1 2. unfold getToken, print. unfold log, logs, outcome.
    cbn [fst snd clock served trace]. rewrite <- app_assoc. cbn [app].
    unfold bind. destruct (get_sql_endpoint_for_lakehouse _ _ _ _ _) as [[a|e'|] w1];
      cbn [fst]; discriminate.
  - exfalso. revert E. apply resolver_total.
Qed.

End WholeRun.

(** ** The orchestrator against the specification *)

(** C4. A trigger answered 200 makes the run return success without any
    status request; so does a trigger answered 202 without a Location
    header: in both cases the trigger is the last request of the run and
    nothing is slept. *)
Theorem immediate_completion (srv : Backend) (name ws : string) (max : Z)
    (w : World) (eid : string) :
  let resolved := resolution srv name ws w in
  let trigger := respond srv (served (final resolved)) in
  let run := refresh_sql_endpoint_and_wait srv name ws max w in
  outcome resolved = Return eid ->
  (status_code trigger = 200 ->
   outcome run = Return true /\ only_triggered ws eid (final resolved) run)
  /\ (status_code trigger = 202 ->
      headers_Location trigger = None ->
      outcome run = Return true /\ only_triggered ws eid (final resolved) run).
Proof.
  intros resolved trigger run Hres. subst run.
  rewrite (refresh_after_resolution srv name ws max w eid Hres). split.
  - apply trigger_completed.
  - intros H202 Hloc. apply trigger_without_location; [exact H202 |].
    fold resolved. fold trigger. now rewrite Hloc.
Qed.

(** C5. A trigger or a poll answered with a status other than 200 and 202
    ends the run at once with the failure of its kind, which carries the
    status code and the body of the response; the failed request is the
    last request of the run (nothing is retried), and a poll fails the run
    whatever number of pending polls came before it. *)
Theorem unexpected_status_is_fatal (srv : Backend) (name ws : string) (max : Z)
    (w : World) (eid : string) :
  let resolved := resolution srv name ws w in
  let w1 := final resolved in
  let trigger := respond srv (served w1) in
  let poll := fun i : nat => respond srv (S (served w1) + i) in
  let run := refresh_sql_endpoint_and_wait srv name ws max w in
  outcome resolved = Return eid ->
  (status_code trigger <> 200 ->
   status_code trigger <> 202 ->
   let failure := TriggerFailed (status_code trigger) (text trigger) in
   outcome run = Raised failure
   /\ only_triggered ws eid w1 run
   /\ message failure
      = "Refresh failed to start: " ++ PyStr.str_of_int (status_code trigger)
        ++ " - " ++ text trigger)
  /\ (forall loc k,
        status_code trigger = 202 ->
        headers_Location trigger = Some loc ->
        loc <> EmptyString ->
        (forall i, (i < k)%nat -> status_code (poll i) = 202) ->
        elapsed_before srv (S (served w1)) k < max * 60 ->
        status_code (poll k) <> 200 ->
        status_code (poll k) <> 202 ->
        let failure := PollFailed (status_code (poll k)) (text (poll k)) in
        outcome run = Raised failure
        /\ requests_of (trace (final run))
           = (requests_of (trace w1)
              ++ EvPost (refresh_url ws eid) :: repeat (EvGet loc) (S k))%list
        /\ sleeps (trace (final run)) = (sleeps (trace w1) ++ repeat 30 k)%list
        /\ message failure
           = "Status check failed: " ++ PyStr.str_of_int (status_code (poll k))
             ++ " - " ++ text (poll k)).
Proof.
  intros resolved w1 trigger poll run Hres. subst run.
  rewrite (refresh_after_resolution srv name ws max w eid Hres).
  fold resolved. fold w1. split.
  - intros H200 H202 failure.
    destruct (trigger_failed srv ws eid max w1 H200 H202) as [Hout Honly].
    split; [exact Hout | split; [exact Honly | reflexivity]].
  - intros loc k H202 Hloc Hne Hpend Hdl Hk200 Hk202 failure.
    destruct (monitored_failure srv ws eid max w1 loc k H202 Hloc Hne Hpend Hdl
                Hk200 Hk202) as [Hout [Hsl Hreq]].
    split; [exact Hout | split; [exact Hreq | split; [exact Hsl | reflexivity]]].
Qed.

(** C10. With maxWaitMinutes zero or negative and a trigger answered 202
    with a Location header, the run fails with the timeout error and the
    trigger is its last request: the condition of the loop is evaluated
    before the first poll, so no poll is issued. *)
Theorem no_patience_no_poll (srv : Backend) (name ws : string) (max : Z)
    (w : World) (eid loc : string) :
  let resolved := resolution srv name ws w in
  let trigger := respond srv (served (final resolved)) in
  let run := refresh_sql_endpoint_and_wait srv name ws max w in
  outcome resolved = Return eid ->
  status_code trigger = 202 ->
  headers_Location trigger = Some loc ->
  loc <> EmptyString ->
  max <= 0 ->
  outcome run = Raised (RefreshTimedOut max)
  /\ only_triggered ws eid (final resolved) run.
Proof.
  intros resolved trigger run Hres H202 Hloc Hne Hmax. subst run.
  rewrite (refresh_after_resolution srv name ws max w eid Hres).
  now apply (monitored_no_patience srv ws eid max (final resolved) loc).
Qed.

(** C2. After a trigger answered 202 with a status location, the location
    is polled while the elapsed time is below maxWait.  A poll answered 200
    ends the run with success; every poll answered 202 is followed by one
    sleep of 30 before the next poll, so that a poll answered 202 followed
    by a poll answered 200 gives success after exactly one sleep; polls
    that stay pending until the deadline make the run fail RefreshTimedOut,
    as happens with maxWait = 1 minute for a location that is always
    pending. *)
Theorem poll_protocol (srv : Backend) (name ws : string) (max : Z)
    (w : World) (eid loc : string) :
  let resolved := resolution srv name ws w in
  let w1 := final resolved in
  let trigger := respond srv (served w1) in
  let poll := fun i : nat => respond srv (S (served w1) + i) in
  let run := refresh_sql_endpoint_and_wait srv name ws max w in
  outcome resolved = Return eid ->
  status_code trigger = 202 ->
  headers_Location trigger = Some loc ->
  loc <> EmptyString ->
  (forall k,
     (forall i, (i < k)%nat -> status_code (poll i) = 202) ->
     elapsed_before srv (S (served w1)) k < max * 60 ->
     status_code (poll k) = 200 ->
     outcome run = Return true
     /\ sleeps (trace (final run)) = (sleeps (trace w1) ++ repeat 30 k)%list
     /\ requests_of (trace (final run))
        = (requests_of (trace w1)
           ++ EvPost (refresh_url ws eid) :: repeat (EvGet loc) (S k))%list
     /\ trace (final run)
        = (trace (pending_rounds srv loc k (loop_entry srv ws eid w1))
           ++ [EvGet loc; EvPrint "✅ Refresh completed successfully!"])%list)
  /\ (status_code (poll 0%nat) = 202 ->
      status_code (poll 1%nat) = 200 ->
      Z.of_nat (latency srv (S (served w1))) + 30 < max * 60 ->
      outcome run = Return true
      /\ sleeps (trace (final run)) = (sleeps (trace w1) ++ [30])%list
      /\ requests_of (trace (final run))
         = (requests_of (trace w1)
            ++ [EvPost (refresh_url ws eid); EvGet loc; EvGet loc])%list)
  /\ ((forall i, elapsed_before srv (S (served w1)) i < max * 60 ->
                 status_code (poll i) = 202) ->
      outcome run = Raised (RefreshTimedOut max))
  /\ (max = 1 ->
      (forall i, status_code (poll i) = 202) ->
      outcome run = Raised (RefreshTimedOut 1)).
Proof.
  intros resolved w1 trigger poll run Hres H202 Hloc Hne. subst run.
  rewrite (refresh_after_resolution srv name ws max w eid Hres).
  fold resolved. fold w1.
  assert (Hsucc : forall k,
     (forall i, (i < k)%nat -> status_code (poll i) = 202) ->
     elapsed_before srv (S (served w1)) k < max * 60 ->
     status_code (poll k) = 200 ->
     outcome (trigger_and_monitor srv ws eid max w1) = Return true
     /\ sleeps (trace (final (trigger_and_monitor srv ws eid max w1)))
        = (sleeps (trace w1) ++ repeat 30 k)%list
     /\ requests_of (trace (final (trigger_and_monitor srv ws eid max w1)))
        = (requests_of (trace w1)
           ++ EvPost (refresh_url ws eid) :: repeat (EvGet loc) (S k))%list
     /\ trace (final (trigger_and_monitor srv ws eid max w1))
        = (trace (pending_rounds srv loc k (loop_entry srv ws eid w1))
           ++ [EvGet loc; EvPrint "✅ Refresh completed successfully!"])%list).
  { intros k Hpend Hdl Hdone.
    now apply (monitored_success srv ws eid max w1 loc k). }
  assert (Hout : (forall i, elapsed_before srv (S (served w1)) i < max * 60 ->
                            status_code (poll i) = 202) ->
                 outcome (trigger_and_monitor srv ws eid max w1)
                 = Raised (RefreshTimedOut max)).
  { intros Hpend.
    now destruct (monitored_timeout srv ws eid max w1 loc H202 Hloc Hne Hpend). }
  split; [exact Hsucc | split; [| split; [exact Hout |]]].
  - intros Hp0 Hp1 Hdl.
    destruct (Hsucc 1%nat) as [Ho [Hs [Hr _]]].
    + intros i Hi. now replace i with 0%nat by lia.
    + cbn [elapsed_before]. now rewrite Nat.add_0_r.
    + exact Hp1.
    + now repeat split.
  - intros -> Hpend. apply Hout. intros i _. apply Hpend.
Qed.

(** ** Every run of the resolver *)

Section ResolverRuns.

Variable srv : Backend.
Variables ws name tok : string.
Variable w : World.

Let r0 := respond srv (served w).
Let r1 := respond srv (S (served w)).
Let r2 := respond srv (S (S (served w))).
Let run := get_sql_endpoint_for_lakehouse srv ws name tok w.

Lemma resolver_listing_failed_run :
  status_code r0 <> 200 ->
  outcome run = Raised (LakehousesListFailed (status_code r0) (text r0))
  /\ issued_gets ws 1 w run.
Proof.
  intros H0. apply Z.eqb_neq in H0.
  subst run. unfold issued_gets, resolver_urls, get_sql_endpoint_for_lakehouse.
  run_monad. fold r0. rewrite H0. cbn [negb firstn]. run_monad.
  repeat split; read_trace; try reflexivity. lia.
Qed.

Lemma resolver_not_found_run :
  status_code r0 = 200 ->
  find (names_lakehouse name) (value_or_empty r0) = None ->
  outcome run = Raised (NotFound name (map displayName (value_or_empty r0)))
  /\ issued_gets ws 1 w run.
Proof.
  intros H0 Hlh. apply Z.eqb_eq in H0.
  subst run. unfold issued_gets, resolver_urls, get_sql_endpoint_for_lakehouse.
  run_monad. fold r0. rewrite H0. cbn [negb firstn]. rewrite Hlh.
  run_monad. repeat split; read_trace; try reflexivity. lia.
Qed.

Lemma resolver_items_failed_run (lh : Item) :
  status_code r0 = 200 ->
  find (names_lakehouse name) (value_or_empty r0) = Some lh ->
  status_code r1 <> 200 ->
  status_code r2 <> 200 ->
  outcome run = Raised (ItemsListFailed (status_code r2) (text r2))
  /\ issued_gets ws 3 w run.
Proof.
  intros H0 Hlh H1 H2.
  apply Z.eqb_neq in H1, H2. apply Z.eqb_eq in H0.
  subst run. unfold issued_gets, resolver_urls, get_sql_endpoint_for_lakehouse.
  run_monad. fold r0. rewrite H0. cbn [negb firstn]. rewrite Hlh.
  run_monad. fold r1. rewrite H1. cbn [negb].
  run_monad. fold r2. rewrite H2. cbn [negb].
  run_monad. repeat split; read_trace; try reflexivity. lia.
Qed.

(** The five ways a resolution can go. *)
Lemma resolver_cases :
  (status_code r0 <> 200
   /\ outcome run = Raised (LakehousesListFailed (status_code r0) (text r0))
   /\ issued_gets ws 1 w run)
  \/ (status_code r0 = 200
      /\ find (names_lakehouse name) (value_or_empty r0) = None
      /\ outcome run = Raised (NotFound name (map displayName (value_or_empty r0)))
      /\ issued_gets ws 1 w run)
  \/ (status_code r0 = 200
      /\ find (names_lakehouse name) (value_or_empty r0) <> None
      /\ status_code r1 = 200
      /\ outcome run =
           match search_direct_path name (value_or_empty r1) with
           | Some e => Return (id e)
           | None =>
               Raised (NoMatchingEndpoint false name
                         (map displayName (value_or_empty r1)))
           end
      /\ issued_gets ws 2 w run)
  \/ (status_code r0 = 200
      /\ find (names_lakehouse name) (value_or_empty r0) <> None
      /\ status_code r1 <> 200
      /\ status_code r2 <> 200
      /\ outcome run = Raised (ItemsListFailed (status_code r2) (text r2))
      /\ issued_gets ws 3 w run)
  \/ (status_code r0 = 200
      /\ find (names_lakehouse name) (value_or_empty r0) <> None
      /\ status_code r1 <> 200
      /\ status_code r2 = 200
      /\ outcome run =
           match search_items_path name
                   (filter is_sql_endpoint (value_or_empty r2)) with
           | Some e => Return (id e)
           | None =>
               Raised (NoMatchingEndpoint true name
                         (map displayName
                            (filter is_sql_endpoint (value_or_empty r2))))
           end
      /\ issued_gets ws 3 w run).
Proof.
  destruct (Z.eq_dec (status_code r0) 200) as [H0 | H0].
  2: { left. split; [exact H0 |]. now apply resolver_listing_failed_run. }
  right.
  destruct (find (names_lakehouse name) (value_or_empty r0)) as [lh|] eqn:Hlh.
  2: { left. split; [exact H0 | split; [reflexivity |]].
       now apply resolver_not_found_run. }
  right.
  assert (Hsome : Some lh <> None) by discriminate.
  destruct (Z.eq_dec (status_code r1) 200) as [H1 | H1].
  { left. destruct (resolver_direct_path srv ws name tok w lh H0 Hlh H1)
      as [Hout [Hserved [Hreq Hsl]]].
    repeat split; try assumption. fold run in Hserved. rewrite Hserved. lia. }
  right.
  destruct (Z.eq_dec (status_code r2) 200) as [H2 | H2].
  - right. destruct (resolver_items_path srv ws name tok w lh H0 Hlh H1 H2)
      as [Hout [Hserved [Hreq Hsl]]].
    repeat split; try assumption. fold run in Hserved. rewrite Hserved. lia.
  - left. destruct (resolver_items_failed_run lh H0 Hlh H1 H2) as [Hout Hiss].
    repeat split; try assumption; apply Hiss.
Qed.

End ResolverRuns.

(** ** Further properties of the resolver *)

(** X1. The lakehouse listing is a gate: when it does not answer 200 the
    resolution fails with the status code and the body of the answer, and
    when it answers 200 without a lakehouse of the given name nothing else
    is requested either; in both cases the listing of the lakehouses is the
    only request of the resolution. *)
Theorem lakehouse_gate (srv : Backend) (ws name tok : string) (w : World) :
  let r0 := respond srv (served w) in
  let run := get_sql_endpoint_for_lakehouse srv ws name tok w in
  (status_code r0 <> 200 ->
   let failure := LakehousesListFailed (status_code r0) (text r0) in
   outcome run = Raised failure
   /\ issued_gets ws 1 w run
   /\ message failure
      = "Failed to get lakehouses: " ++ PyStr.str_of_int (status_code r0)
        ++ " - " ++ text r0)
  /\ (status_code r0 = 200 ->
      (forall x, In x (value_or_empty r0) -> displayName x <> name) ->
      issued_gets ws 1 w run).
Proof.
  intros r0 run. split.
  - intros H0 failure.
    destruct (resolver_listing_failed_run srv ws name tok w H0) as [Hout Hiss].
    split; [exact Hout | split; [exact Hiss | reflexivity]].
  - intros H0 Hnone.
    apply (resolver_not_found_run srv ws name tok w H0).
    apply find_none_iff. intros x Hx.
    destruct (names_lakehouse name x) eqn:E; [| reflexivity].
    apply names_lakehouse_iff in E. now apply Hnone in Hx.
Qed.

(** X2. On the fallback path an items listing that does not answer 200 is
    fatal: the resolution fails with the status code and the body of that
    answer, after the three listings were requested once each. *)
Theorem items_listing_failure (srv : Backend) (ws name tok : string) (w : World) :
  let r0 := respond srv (served w) in
  let r1 := respond srv (S (served w)) in
  let r2 := respond srv (S (S (served w))) in
  let run := get_sql_endpoint_for_lakehouse srv ws name tok w in
  status_code r0 = 200 ->
  (exists lh, In lh (value_or_empty r0) /\ displayName lh = name) ->
  status_code r1 <> 200 ->
  status_code r2 <> 200 ->
  let failure := ItemsListFailed (status_code r2) (text r2) in
  outcome run = Raised failure
  /\ issued_gets ws 3 w run
  /\ message failure
     = "Failed to get workspace items: " ++ PyStr.str_of_int (status_code r2)
       ++ " - " ++ text r2.
Proof.
  intros r0 r1 r2 run H0 Hlh H1 H2 failure.
  destruct (lakehouse_present name _ Hlh) as [lh Hfind].
  destruct (resolver_items_failed_run srv ws name tok w lh H0 Hfind H1 H2)
    as [Hout Hiss].
  split; [exact Hout | split; [exact Hiss | reflexivity]].
Qed.

(** X3. Whenever a resolution fails for want of a matching endpoint, its
    message names the lakehouse asked for and lists every candidate that
    was considered: the whole direct listing on the direct path, the items
    of type SQLEndpoint on the fallback path; none of them was plausible. *)
Theorem no_match_lists_candidates (srv : Backend) (ws name tok : string) (w : World)
    (via_items : bool) (n : string) (names : list string) :
  let r1 := respond srv (S (served w)) in
  let r2 := respond srv (S (S (served w))) in
  let run := get_sql_endpoint_for_lakehouse srv ws name tok w in
  let candidates :=
    if via_items then filter is_sql_endpoint (value_or_empty r2)
    else value_or_empty r1 in
  outcome run = Raised (NoMatchingEndpoint via_items n names) ->
  n = name
  /\ names = map displayName candidates
  /\ (via_items = true <-> status_code r1 <> 200)
  /\ (forall x, In x candidates ->
        ~ (if via_items then plausible_items name x else plausible_direct name x))
  /\ forall x, In x candidates ->
       PyStr.occurs_in (repr (displayName x))
         (message (NoMatchingEndpoint via_items n names)).
Proof.
  intros r1 r2 run candidates Hout.
  assert (Hmsg : forall b l x, In x l ->
            PyStr.occurs_in (repr (displayName x))
              (message (NoMatchingEndpoint b name (map displayName l)))).
  { intros b l x Hx. unfold message. destruct b.
    - apply (occurs_in_app_r _ "No SQL endpoint found for lakehouse '").
      apply occurs_in_app_r.
      apply (occurs_in_app_r _ "'. Available SQL endpoints: ").
      apply occurs_in_repr_list. now apply in_map.
    - apply (occurs_in_app_r _ "No SQL endpoint found for lakehouse '").
      apply occurs_in_app_r.
      apply (occurs_in_app_r _ "'. Available: ").
      apply occurs_in_repr_list. now apply in_map. }
  destruct (resolver_cases srv ws name tok w)
    as [[_ [H _]] | [[_ [_ [H _]]] | [[_ [_ [H1 [H _]]]] | [[_ [_ [_ [_ [H _]]]]]
       | [_ [_ [H1 [_ [H _]]]]]]]]];
    fold run in H; rewrite H in Hout; try discriminate.
  - fold r1 in Hout, H1.
    destruct (search_direct_path name (value_or_empty r1)) as [e|] eqn:E;
      [discriminate |].
    injection Hout as <- <- <-. subst candidates. cbv iota.
    split; [reflexivity | split; [reflexivity | split; [| split]]].
    + split; [discriminate | intros Hne; contradiction].
    + now apply search_direct_path_none.
    + apply Hmsg.
  - fold r1 in H1. fold r2 in Hout.
    destruct (search_items_path name (filter is_sql_endpoint (value_or_empty r2)))
      as [e|] eqn:E; [discriminate |].
    injection Hout as <- <- <-. subst candidates. cbv iota.
    split; [reflexivity | split; [reflexivity | split; [| split]]].
    + split; [intros _; exact H1 | reflexivity].
    + now apply search_items_path_none.
    + apply Hmsg.
Qed.

Lemma resolver_issues (srv : Backend) (ws name tok : string) (w : World) :
  exists n,
    (1 <= n <= 3)%nat
    /\ issued_gets ws n w (get_sql_endpoint_for_lakehouse srv ws name tok w).
Proof.
  destruct (resolver_cases srv ws name tok w)
    as [[_ [_ H]] | [[_ [_ [_ H]]] | [[_ [_ [_ [_ H]]]] | [[_ [_ [_ [_ [_ H]]]]]
       | [_ [_ [_ [_ [_ H]]]]]]]]].
  - exists 1%nat. split; [lia | exact H].
  - exists 1%nat. split; [lia | exact H].
  - exists 2%nat. split; [lia | exact H].
  - exists 3%nat. split; [lia | exact H].
  - exists 3%nat. split; [lia | exact H].
Qed.

(** X4. A resolution only reads: it issues between one and three GET
    requests, the listings of lakehouses, SQL endpoints and items in that
    order, never a POST, and it never sleeps. *)
Theorem resolver_read_only (srv : Backend) (ws name tok : string) (w : World) :
  exists n,
    (1 <= n <= 3)%nat
    /\ issued_gets ws n w (get_sql_endpoint_for_lakehouse srv ws name tok w).
Proof.
  pose proof (resolver_issues srv ws name tok w) as [n [Hn Hiss]].
  exists n. split; [exact Hn |]. destruct Hiss as [Hreq [Hsl Hserved]].
  unfold issued_gets. now rewrite Hreq, Hsl, Hserved.
Qed.

(** X5. The lakehouse that was found decides nothing beyond its presence:
    its identifier is printed and not used.  Two backends whose lakehouse
    listings both answer 200 and both hold a lakehouse of the given name,
    and which answer alike afterwards, resolve to the same outcome. *)
Theorem lakehouse_id_not_used (srv1 srv2 : Backend) (ws name tok : string) (w : World) :
  (forall k, k <> served w -> respond srv1 k = respond srv2 k) ->
  status_code (respond srv1 (served w)) = 200 ->
  status_code (respond srv2 (served w)) = 200 ->
  (exists lh, In lh (value_or_empty (respond srv1 (served w))) /\ displayName lh = name) ->
  (exists lh, In lh (value_or_empty (respond srv2 (served w))) /\ displayName lh = name) ->
  outcome (get_sql_endpoint_for_lakehouse srv1 ws name tok w)
  = outcome (get_sql_endpoint_for_lakehouse srv2 ws name tok w).
Proof.
  intros Hsame Ha Hb Hla Hlb.
  destruct (lakehouse_present name _ Hla) as [la Hfa].
  destruct (lakehouse_present name _ Hlb) as [lb Hfb].
  pose proof (Hsame (S (served w)) ltac:(lia)) as E1.
  pose proof (Hsame (S (S (served w))) ltac:(lia)) as E2.
  destruct (Z.eq_dec (status_code (respond srv1 (S (served w)))) 200) as [H1 | H1].
  - destruct (resolver_direct_path srv1 ws name tok w la Ha Hfa H1) as [-> _].
    rewrite E1 in H1.
    destruct (resolver_direct_path srv2 ws name tok w lb Hb Hfb H1) as [-> _].
    now rewrite E1.
  - destruct (Z.eq_dec (status_code (respond srv1 (S (S (served w))))) 200)
      as [H2 | H2].
    + destruct (resolver_items_path srv1 ws name tok w la Ha Hfa H1 H2) as [-> _].
      rewrite E1 in H1. rewrite E2 in H2.
      destruct (resolver_items_path srv2 ws name tok w lb Hb Hfb H1 H2) as [-> _].
      now rewrite E2.
    + destruct (resolver_items_failed srv1 ws name tok w la Ha Hfa H1 H2) as [-> _].
      rewrite E1 in H1. rewrite E2 in H2.
      destruct (resolver_items_failed srv2 ws name tok w lb Hb Hfb H1 H2) as [-> _].
      now rewrite E2.
Qed.

(** ** Every run of the polling loop *)

Section PollShape.

Variable srv : Backend.
Variable url : string.
Variables start max_s : Z.
Variable w : World.

(** From the [j]-th round on, the loop goes through rounds of pending
    polls up to some round [k], where it ends in one of three ways. *)
Lemma poll_loop_cases (fuel j : nat) :
  (1 <= fuel)%nat ->
  max_s - (clock (pending_rounds srv url j w) - start) <= 30 * Z.of_nat fuel - 30 ->
  exists k,
    (j <= k)%nat
    /\ (forall i, (j <= i < k)%nat ->
          clock (pending_rounds srv url i w) - start < max_s
          /\ status_code (respond srv (served w + i)) = 202)
    /\ ((max_s <= clock (pending_rounds srv url k w) - start
         /\ poll_loop srv fuel url start max_s (pending_rounds srv url j w)
            = (Return Fallthrough, pending_rounds srv url k w))
        \/ (clock (pending_rounds srv url k w) - start < max_s
            /\ status_code (respond srv (served w + k)) = 200
            /\ poll_loop srv fuel url start max_s (pending_rounds srv url j w)
               = (Return (Returned true),
                  logs [EvGet url; EvPrint "✅ Refresh completed successfully!"]
                    {| clock := clock (pending_rounds srv url k w)
                                + Z.of_nat (latency srv (served w + k));
                       served := S (served w + k);
                       trace := trace (pending_rounds srv url k w) |}))
        \/ (clock (pending_rounds srv url k w) - start < max_s
            /\ status_code (respond srv (served w + k)) <> 200
            /\ status_code (respond srv (served w + k)) <> 202
            /\ poll_loop srv fuel url start max_s (pending_rounds srv url j w)
               = (Raised (PollFailed (status_code (respond srv (served w + k)))
                            (text (respond srv (served w + k)))),
                  logs [EvGet url]
                    {| clock := clock (pending_rounds srv url k w)
                                + Z.of_nat (latency srv (served w + k));
                       served := S (served w + k);
                       trace := trace (pending_rounds srv url k w) |}))).
Proof.
  revert j. induction fuel as [|fuel IH]; intros j Hf Hfuel; [lia |].
  pose proof (pending_rounds_served srv url j w) as Hserved.
  destruct (Z_lt_le_dec (clock (pending_rounds srv url j w) - start) max_s)
    as [Hlt | Hge].
  2: { exists j. split; [lia | split; [intros i Hi; lia |]]. left.
       split; [exact Hge |]. now apply poll_step_deadline. }
  destruct (Z.eq_dec (status_code (respond srv (served w + j))) 200) as [H200 | H200].
  { exists j. split; [lia | split; [intros i Hi; lia |]]. right. left.
    split; [exact Hlt | split; [exact H200 |]].
    rewrite poll_step_done; [now rewrite Hserved | exact Hlt | now rewrite Hserved]. }
  destruct (Z.eq_dec (status_code (respond srv (served w + j))) 202) as [H202 | H202].
  - destruct (IH (S j)) as [k [Hjk [Hpend Hend]]].
    + cbn [pending_rounds pending_round clock] in *. lia.
    + cbn [pending_rounds pending_round clock]. lia.
    + exists k. split; [lia | split].
      * intros i Hi. destruct (Nat.eq_dec i j) as [-> | Hne];
          [now split | apply Hpend; lia].
      * rewrite poll_step_pending; [exact Hend | exact Hlt | now rewrite Hserved].
  - exists j. split; [lia | split; [intros i Hi; lia |]]. right. right.
    split; [exact Hlt | split; [exact H200 | split; [exact H202 |]]].
    rewrite poll_step_failed;
      [now rewrite Hserved | exact Hlt | now rewrite Hserved | now rewrite Hserved].
Qed.

End PollShape.

(** ** Every run of the orchestrator *)

Section TriggerShape.

Variable srv : Backend.
Variables ws eid : string.
Variable max : Z.
Variable w : World.

Let trigger := respond srv (served w).
Let run := trigger_and_monitor srv ws eid max w.

(** The four ways the answer to the trigger is classified. *)
Lemma trigger_split :
  status_code trigger = 200
  \/ (status_code trigger = 202 /\ truthy (headers_Location trigger) = false)
  \/ (status_code trigger <> 200 /\ status_code trigger <> 202)
  \/ (status_code trigger = 202
      /\ exists loc, headers_Location trigger = Some loc /\ loc <> EmptyString).
Proof.
  destruct (Z.eq_dec (status_code trigger) 200) as [H200 | H200]; [now left |].
  destruct (Z.eq_dec (status_code trigger) 202) as [H202 | H202];
    [| right; right; left; now split].
  destruct (headers_Location trigger) as [[|c loc]|] eqn:E.
  - right. left. now split.
  - right. right. right. split; [exact H202 |].
    exists (String c loc). split; [reflexivity | discriminate].
  - right. left. now split.
Qed.

(** A monitored run goes through [k] pending rounds and ends by the
    deadline, by a poll answered 200, or by a poll answered otherwise. *)
Lemma monitored_cases (loc : string) :
  status_code trigger = 202 ->
  headers_Location trigger = Some loc ->
  loc <> EmptyString ->
  exists k,
    (forall i, (i < k)%nat ->
       elapsed_before srv (S (served w)) i < max * 60
       /\ status_code (respond srv (S (served w) + i)) = 202)
    /\ sleeps (trace (final run)) = (sleeps (trace w) ++ repeat 30 k)%list
    /\ ((max * 60 <= elapsed_before srv (S (served w)) k
         /\ outcome run = Raised (RefreshTimedOut max)
         /\ requests_of (trace (final run))
            = (requests_of (trace w)
               ++ EvPost (refresh_url ws eid) :: repeat (EvGet loc) k)%list
         /\ clock (final run)
            = clock (loop_entry srv ws eid w) + elapsed_before srv (S (served w)) k)
        \/ (elapsed_before srv (S (served w)) k < max * 60
            /\ status_code (respond srv (S (served w) + k)) = 200
            /\ outcome run = Return true
            /\ requests_of (trace (final run))
               = (requests_of (trace w)
                  ++ EvPost (refresh_url ws eid) :: repeat (EvGet loc) (S k))%list)
        \/ (elapsed_before srv (S (served w)) k < max * 60
            /\ status_code (respond srv (S (served w) + k)) <> 200
            /\ status_code (respond srv (S (served w) + k)) <> 202
            /\ outcome run
               = Raised (PollFailed (status_code (respond srv (S (served w) + k)))
                           (text (respond srv (S (served w) + k))))
            /\ requests_of (trace (final run))
               = (requests_of (trace w)
                  ++ EvPost (refresh_url ws eid) :: repeat (EvGet loc) (S k))%list)).
Proof.
  intros H Hloc Hne. subst run.
  rewrite (trigger_monitored srv ws eid max w loc H Hloc Hne). cbv zeta.
  destruct (loop_entry_facts srv ws eid w) as [Hserved [Hreq Hsl]].
  set (entry := loop_entry srv ws eid w) in *.
  destruct (poll_fuel_enough (max * 60)) as [Hone Hfuel].
  destruct (poll_loop_cases srv loc (clock entry) (max * 60) entry
              (poll_fuel (max * 60)) 0 Hone) as [k [_ [Hpend Hend]]].
  { cbn [pending_rounds]. lia. }
  cbn [pending_rounds] in Hend.
  assert (Hclock : forall i,
            clock (pending_rounds srv loc i entry) - clock entry
            = elapsed_before srv (S (served w)) i).
  { intros i. rewrite pending_rounds_clock, Hserved. lia. }
  exists k. split.
  { intros i Hi. destruct (Hpend i ltac:(lia)) as [Hc Hs].
    rewrite Hclock in Hc. rewrite Hserved in Hs. now split. }
  rewrite Hclock, Hserved in Hend.
  destruct Hend as [[Hge ->] | [[Hlt [Hs ->]] | [Hlt [H200 [H202 ->]]]]];
    unfold outcome, final, logs; cbn [fst snd trace].
  - split.
    + now rewrite pending_rounds_sleeps, Hsl.
    + left. split; [exact Hge | split; [reflexivity | split]].
      * now rewrite pending_rounds_requests, Hreq, <- app_assoc.
      * rewrite <- Hclock. lia.
  - split.
    + read_trace. now rewrite pending_rounds_sleeps, Hsl.
    + right. left. split; [exact Hlt | split; [exact Hs | split; [reflexivity |]]].
      read_trace. rewrite pending_rounds_requests, Hreq, <- !app_assoc. cbn [app].
      now rewrite <- repeat_cons.
  - split.
    + read_trace. now rewrite pending_rounds_sleeps, Hsl.
    + right. right.
      split; [exact Hlt | split; [exact H200 | split; [exact H202 |]]].
      split; [reflexivity |].
      read_trace. rewrite pending_rounds_requests, Hreq, <- !app_assoc. cbn [app].
      now rewrite <- repeat_cons.
Qed.

(** At most [2 * max] polls fit before the deadline. *)
Lemma polls_fit (first k : nat) :
  (k = 0%nat \/ elapsed_before srv first (k - 1) < max * 60) ->
  Z.of_nat k <= Z.max 0 (2 * max).
Proof.
  intros [-> | H]; [cbn; lia |].
  destruct k as [|k]; [cbn; lia |].
  replace (S k - 1)%nat with k in H by lia.
  pose proof (elapsed_before_lower srv first k). lia.
Qed.

End TriggerShape.

Section RunShape.

Variable srv : Backend.
Variables name ws : string.
Variable max : Z.
Variable w : World.

(** When the resolver raises, the run ends there. *)
Lemma refresh_after_failure (e : Exception) :
  outcome (resolution srv name ws w) = Raised e ->
  refresh_sql_endpoint_and_wait srv name ws max w
  = (Raised e, final (resolution srv name ws w)).
Proof.
  unfold refresh_sql_endpoint_and_wait, resolution, resolver_entry.
  unfold bind at 1 2. unfold getToken, print. unfold log, logs, outcome, final.
  cbn [fst snd clock served trace]. rewrite <- app_assoc. cbn [app].
  unfold bind. destruct (get_sql_endpoint_for_lakehouse _ _ _ _ _) as [[a|e'|] w1];
    cbn [fst snd]; intros [= ->]. reflexivity.
Qed.

(** The resolver raises none of the orchestrator's exceptions. *)
Lemma resolution_never_times_out (m : Z) :
  outcome (resolution srv name ws w) <> Raised (RefreshTimedOut m).
Proof.
  unfold resolution.
  destruct (resolver_cases srv ws name (pbi_token srv) (resolver_entry ws w))
    as [[_ [H _]] | [[_ [_ [H _]]] | [[_ [_ [_ [H _]]]] | [[_ [_ [_ [_ [H _]]]]]
       | [_ [_ [_ [_ [H _]]]]]]]]]; rewrite H; try discriminate.
  - destruct (search_direct_path name _); discriminate.
  - destruct (search_items_path name _); discriminate.
Qed.

End RunShape.

(** ** Further properties of the orchestrator *)

(** X6. When the resolution fails the run fails with the same exception
    and stops where the resolution stopped: the refresh is never triggered
    (the requests of the run are the one to three listings of the
    resolver, no POST) and nothing is slept. *)
Theorem resolution_failure_ends_run (srv : Backend) (name ws : string) (max : Z)
    (w : World) (e : Exception) :
  let resolved := resolution srv name ws w in
  let run := refresh_sql_endpoint_and_wait srv name ws max w in
  outcome resolved = Raised e ->
  outcome run = Raised e
  /\ final run = final resolved
  /\ exists n, (1 <= n <= 3)%nat /\ issued_gets ws n w run.
Proof.
  intros resolved run Hres. subst run.
  rewrite (refresh_after_failure srv name ws max w e Hres).
  split; [reflexivity | split; [reflexivity |]].
  destruct (resolver_issues srv ws name (pbi_token srv) (resolver_entry ws w))
    as [n [Hn [Hreq [Hsl Hserved]]]].
  exists n. split; [exact Hn |].
  unfold issued_gets, final. cbn [snd]. fold (resolution srv name ws w).
  unfold resolution at 1 2 3. unfold final in Hreq, Hsl, Hserved.
  rewrite Hreq, Hsl, Hserved. unfold resolver_entry, logs. cbn [trace served].
  repeat split; read_trace; reflexivity.
Qed.

(** X7. A Location header that is present but empty counts as absent: a
    trigger answered 202 with it makes the run return success at once,
    without any poll and without sleeping. *)
Theorem empty_location_is_no_location (srv : Backend) (name ws : string) (max : Z)
    (w : World) (eid : string) :
  let resolved := resolution srv name ws w in
  let trigger := respond srv (served (final resolved)) in
  let run := refresh_sql_endpoint_and_wait srv name ws max w in
  outcome resolved = Return eid ->
  status_code trigger = 202 ->
  headers_Location trigger = Some EmptyString ->
  outcome run = Return true /\ only_triggered ws eid (final resolved) run.
Proof.
  intros resolved trigger run Hres H202 Hloc. subst run.
  rewrite (refresh_after_resolution srv name ws max w eid Hres).
  apply trigger_without_location; [exact H202 |].
  fold resolved. fold trigger. now rewrite Hloc.
Qed.

Section Schedules.

Variable srv : Backend.
Variables ws eid : string.
Variable max : Z.
Variable w : World.

Let trigger := respond srv (served w).
Let run := trigger_and_monitor srv ws eid max w.

Lemma schedule_app (a b : list Event) :
  schedule (a ++ b) = (schedule a ++ schedule b)%list.
Proof. apply filter_app. Qed.

Lemma poll_rounds_snoc (url : string) (k : nat) :
  (poll_rounds url k ++ [EvGet url; EvSleep 30])%list = poll_rounds url (S k).
Proof.
  induction k as [|k IH]; [reflexivity |].
  cbn [poll_rounds app]. cbn [poll_rounds] in IH. now rewrite IH.
Qed.

Lemma pending_rounds_schedule (url : string) (k : nat) (w0 : World) :
  schedule (trace (pending_rounds srv url k w0))
  = (schedule (trace w0) ++ poll_rounds url k)%list.
Proof.
  induction k as [|k IH]; cbn [pending_rounds pending_round trace].
  - cbn [poll_rounds]. now rewrite app_nil_r.
  - rewrite schedule_app, IH. cbn [schedule filter is_timed].
    now rewrite <- app_assoc, poll_rounds_snoc.
Qed.

Lemma loop_entry_schedule :
  schedule (trace (loop_entry srv ws eid w))
  = (schedule (trace w) ++ [EvPost (refresh_url ws eid)])%list.
Proof. unfold loop_entry. cbn [trace]. now rewrite schedule_app. Qed.

(** A run that was not monitored issued the trigger and nothing else. *)
Lemma trigger_quiet_schedule :
  status_code trigger = 200
  \/ (status_code trigger = 202 /\ truthy (headers_Location trigger) = false)
  \/ (status_code trigger <> 200 /\ status_code trigger <> 202) ->
  schedule (trace (final run))
  = (schedule (trace w) ++ [EvPost (refresh_url ws eid)])%list.
Proof.
  intros [H200 | [[H202 Hloc] | [H200 H202]]];
    subst run; unfold trigger_and_monitor; run_monad; fold trigger.
  - rewrite H200. cbn [Z.eqb Pos.eqb]. run_monad.
    rewrite !schedule_app. cbn [schedule filter is_timed].
    now rewrite !app_nil_r.
  - rewrite H202. cbn [Z.eqb Pos.eqb]. rewrite Hloc. cbn [negb]. run_monad.
    rewrite !schedule_app. cbn [schedule filter is_timed].
    now rewrite !app_nil_r.
  - apply Z.eqb_neq in H200, H202. rewrite H200, H202. run_monad.
    rewrite !schedule_app. cbn [schedule filter is_timed].
    now rewrite !app_nil_r.
Qed.

(** A monitored run alternates polls and sleeps; a poll is only issued
    before the deadline. *)
Lemma monitored_schedule (loc : string) :
  status_code trigger = 202 ->
  headers_Location trigger = Some loc ->
  loc <> EmptyString ->
  exists (k : nat) (last_poll : bool),
    schedule (trace (final run))
    = (schedule (trace w)
       ++ EvPost (refresh_url ws eid)
          :: poll_rounds loc k ++ (if last_poll then [EvGet loc] else []))%list
    /\ (if last_poll
        then elapsed_before srv (S (served w)) k < max * 60
        else k = 0%nat \/ elapsed_before srv (S (served w)) (k - 1) < max * 60).
Proof.
  intros H Hloc Hne. subst run.
  rewrite (trigger_monitored srv ws eid max w loc H Hloc Hne). cbv zeta.
  destruct (loop_entry_facts srv ws eid w) as [Hserved _].
  pose proof loop_entry_schedule as Hsch.
  set (entry := loop_entry srv ws eid w) in *.
  destruct (poll_fuel_enough (max * 60)) as [Hone Hfuel].
  destruct (poll_loop_cases srv loc (clock entry) (max * 60) entry
              (poll_fuel (max * 60)) 0 Hone) as [k [_ [Hpend Hend]]].
  { cbn [pending_rounds]. lia. }
  cbn [pending_rounds] in Hend.
  assert (Hclock : forall i,
            clock (pending_rounds srv loc i entry) - clock entry
            = elapsed_before srv (S (served w)) i).
  { intros i. rewrite pending_rounds_clock, Hserved. lia. }
  rewrite Hclock in Hend.
  destruct Hend as [[Hge ->] | [[Hlt [Hs ->]] | [Hlt [H200 [H202 ->]]]]];
    unfold final, logs; cbn [snd trace].
  - exists k, false. split.
    + rewrite pending_rounds_schedule, Hsch, <- app_assoc. cbn [app].
      now rewrite app_nil_r.
    + destruct k as [|k]; [now left | right].
      replace (S k - 1)%nat with k by lia.
      destruct (Hpend k ltac:(lia)) as [Hc _]. now rewrite Hclock in Hc.
  - exists k, true. split; [| exact Hlt].
    rewrite schedule_app, pending_rounds_schedule, Hsch, <- !app_assoc.
    reflexivity.
  - exists k, true. split; [| exact Hlt].
    rewrite schedule_app, pending_rounds_schedule, Hsch, <- !app_assoc.
    reflexivity.
Qed.

End Schedules.

(** X8. Polling follows a fixed schedule and is bounded.  After a
    resolution that returned, the requests and sleeps of the run are one
    POST, to the refresh URL of the resolved endpoint, then polls of the
    status location, each followed by one sleep of 30 except possibly the
    last poll.  A poll is only issued while the loop is younger than the
    deadline, so with [polls] polls either [polls = 0] or
    [30 * (polls - 1) < max_wait_minutes * 60]; for the integer
    max_wait_minutes of the model that is at most 2 * max_wait_minutes
    polls, and none when it is not positive. *)
Theorem bounded_polling (srv : Backend) (name ws : string) (max : Z)
    (w : World) (eid : string) :
  let resolved := resolution srv name ws w in
  let w1 := final resolved in
  let trigger := respond srv (served w1) in
  let run := refresh_sql_endpoint_and_wait srv name ws max w in
  outcome resolved = Return eid ->
  exists (naps : nat) (last_poll : bool),
    let polls := (naps + (if last_poll then 1 else 0))%nat in
    schedule (trace (final run))
    = (schedule (trace w1)
       ++ EvPost (refresh_url ws eid)
          :: poll_rounds (location_of trigger) naps
          ++ (if last_poll then [EvGet (location_of trigger)] else []))%list
    /\ (polls = 0%nat \/ 30 * (Z.of_nat polls - 1) < max * 60)
    /\ Z.of_nat polls <= Z.max 0 (2 * max).
Proof.
  intros resolved w1 trigger run Hres. subst run.
  rewrite (refresh_after_resolution srv name ws max w eid Hres).
  fold resolved. fold w1.
  destruct (trigger_split srv w1)
    as [H200 | [[H202 Hloc] | [[H200 H202] | [H202 [loc [Hloc Hne]]]]]].
  4: { destruct (monitored_schedule srv ws eid max w1 loc H202 Hloc Hne)
         as [k [last_poll [Hsch Hbound]]].
       assert (Hl : location_of trigger = loc).
       { unfold location_of, trigger. now rewrite Hloc. }
       rewrite Hl. exists k, last_poll. cbv zeta.
       split; [exact Hsch |].
       pose proof (elapsed_before_lower srv (S (served w1)) k) as Hk.
       destruct last_poll.
       - split; [right |]; lia.
       - destruct Hbound as [-> | Hbound]; [cbn; split; [now left | lia] |].
         destruct k as [|k]; [cbn; split; [now left | lia] |].
         replace (S k - 1)%nat with k in Hbound by lia.
         pose proof (elapsed_before_lower srv (S (served w1)) k) as Hk'.
         split; [right |]; lia. }
  - exists 0%nat, false. cbv zeta. cbn [poll_rounds app Nat.add].
    split; [apply trigger_quiet_schedule; now left | split; [now left | lia]].
  - exists 0%nat, false. cbv zeta. cbn [poll_rounds app Nat.add].
    split; [apply trigger_quiet_schedule; right; left; now split |
            split; [now left | lia]].
  - exists 0%nat, false. cbv zeta. cbn [poll_rounds app Nat.add].
    split; [apply trigger_quiet_schedule; right; right; now split |
            split; [now left | lia]].
Qed.

(** X9. Every run ends, and it ends by returning True or by raising: the
    function never returns False, and its loop ends for every backend and
    every max_wait_minutes. *)
Theorem run_returns_true_or_raises (srv : Backend) (name ws : string) (max : Z)
    (w : World) :
  let run := refresh_sql_endpoint_and_wait srv name ws max w in
  outcome run = Return true \/ exists e, outcome run = Raised e.
Proof.
  intros run. subst run.
  destruct (outcome (resolution srv name ws w)) as [eid|e|] eqn:Hres.
  - rewrite (refresh_after_resolution srv name ws max w eid Hres).
    set (w1 := final (resolution srv name ws w)).
    destruct (trigger_split srv w1)
      as [H200 | [[H202 Hloc] | [[H200 H202] | [H202 [loc [Hloc Hne]]]]]].
    + left. now apply trigger_completed.
    + left. now apply trigger_without_location.
    + right. eexists. now apply trigger_failed.
    + destruct (monitored_cases srv ws eid max w1 loc H202 Hloc Hne)
        as [k [_ [_ [[_ [Ho _]] | [[_ [_ [Ho _]]] | [_ [_ [_ [Ho _]]]]]]]]].
      * right. eexists. exact Ho.
      * left. exact Ho.
      * right. eexists. exact Ho.
  - right. exists e. now rewrite (refresh_after_failure srv name ws max w e Hres).
  - exfalso. revert Hres. apply resolver_total.
Qed.

(** X10. Success is never reported without a completion signal: when the
    run returns, the resolver returned an endpoint and either the trigger
    was answered 200, or it was answered 202 without a usable Location, or
    after some pending polls within the deadline a poll was answered 200. *)
Theorem success_means_completed (srv : Backend) (name ws : string) (max : Z)
    (w : World) (b : bool) :
  let resolved := resolution srv name ws w in
  let w1 := final resolved in
  let trigger := respond srv (served w1) in
  let poll := fun i : nat => respond srv (S (served w1) + i) in
  let run := refresh_sql_endpoint_and_wait srv name ws max w in
  outcome run = Return b ->
  b = true
  /\ (exists eid, outcome resolved = Return eid)
  /\ (status_code trigger = 200
      \/ (status_code trigger = 202 /\ truthy (headers_Location trigger) = false)
      \/ (status_code trigger = 202
          /\ exists k,
               status_code (poll k) = 200
               /\ (forall i, (i < k)%nat -> status_code (poll i) = 202)
               /\ elapsed_before srv (S (served w1)) k < max * 60)).
Proof.
  intros resolved w1 trigger poll run Hrun. subst run.
  destruct (outcome resolved) as [eid|e|] eqn:Hres.
  - rewrite (refresh_after_resolution srv name ws max w eid Hres) in Hrun.
    fold resolved in Hrun. fold w1 in Hrun.
    destruct (trigger_split srv w1)
      as [H200 | [[H202 Hloc] | [[H200 H202] | [H202 [loc [Hloc Hne]]]]]].
    + destruct (trigger_completed srv ws eid max w1 H200) as [Ho _].
      rewrite Ho in Hrun. injection Hrun as <-.
      split; [reflexivity | split; [now exists eid | now left]].
    + destruct (trigger_without_location srv ws eid max w1 H202 Hloc) as [Ho _].
      rewrite Ho in Hrun. injection Hrun as <-.
      split; [reflexivity | split; [now exists eid | right; left; now split]].
    + destruct (trigger_failed srv ws eid max w1 H200 H202) as [Ho _].
      rewrite Ho in Hrun. discriminate.
    + destruct (monitored_cases srv ws eid max w1 loc H202 Hloc Hne)
        as [k [Hpend [_ [[_ [Ho _]] | [[Hlt [Hk [Ho _]]] | [_ [_ [_ [Ho _]]]]]]]]];
        rewrite Ho in Hrun; try discriminate.
      injection Hrun as <-.
      split; [reflexivity | split; [now exists eid |]].
      right. right. split; [exact H202 |]. exists k.
      split; [exact Hk | split; [| exact Hlt]].
      intros i Hi. now apply Hpend.
  - rewrite (refresh_after_failure srv name ws max w e Hres) in Hrun. discriminate.
  - exfalso. revert Hres. apply resolver_total.
Qed.

(** X11. A timeout is never reported early.  When the run raises the
    timeout, it names the caller's max_wait_minutes, the trigger was
    answered 202, every poll that was issued was answered 202, and at least
    max_wait_minutes * 60 seconds have passed on the clock since the loop
    was entered. *)
Theorem timeout_not_early (srv : Backend) (name ws : string) (max : Z)
    (w : World) (m : Z) :
  let resolved := resolution srv name ws w in
  let w1 := final resolved in
  let trigger := respond srv (served w1) in
  let poll := fun i : nat => respond srv (S (served w1) + i) in
  let run := refresh_sql_endpoint_and_wait srv name ws max w in
  outcome run = Raised (RefreshTimedOut m) ->
  m = max
  /\ status_code trigger = 202
  /\ exists eid polls,
       outcome resolved = Return eid
       /\ (forall i, (i < polls)%nat -> status_code (poll i) = 202)
       /\ requests_of (trace (final run))
          = (requests_of (trace w1)
             ++ EvPost (refresh_url ws eid)
                :: repeat (EvGet (location_of trigger)) polls)%list
       /\ max * 60 <= clock (final run) - clock (loop_entry srv ws eid w1).
Proof.
  intros resolved w1 trigger poll run Hrun. subst run.
  destruct (outcome resolved) as [eid|e|] eqn:Hres.
  - rewrite (refresh_after_resolution srv name ws max w eid Hres) in Hrun |- *.
    fold resolved in Hrun |- *. fold w1 in Hrun |- *.
    destruct (trigger_split srv w1)
      as [H200 | [[H202 Hloc] | [[H200 H202] | [H202 [loc [Hloc Hne]]]]]].
    + destruct (trigger_completed srv ws eid max w1 H200) as [Ho _].
      rewrite Ho in Hrun. discriminate.
    + destruct (trigger_without_location srv ws eid max w1 H202 Hloc) as [Ho _].
      rewrite Ho in Hrun. discriminate.
    + destruct (trigger_failed srv ws eid max w1 H200 H202) as [Ho _].
      rewrite Ho in Hrun. discriminate.
    + destruct (monitored_cases srv ws eid max w1 loc H202 Hloc Hne)
        as [k [Hpend [_ [[Hge [Ho [Hreq Hclock]]] | [[_ [_ [Ho _]]]
           | [_ [_ [_ [Ho _]]]]]]]]];
        rewrite Ho in Hrun; try discriminate.
      injection Hrun as <-.
      split; [reflexivity | split; [exact H202 |]].
      exists eid, k. split; [reflexivity | split; [| split]].
      * intros i Hi. now apply Hpend.
      * unfold location_of. fold trigger in Hloc. now rewrite Hloc.
      * rewrite Hclock. lia.
  - rewrite (refresh_after_failure srv name ws max w e Hres) in Hrun.
    unfold outcome in Hrun. cbn [fst] in Hrun. injection Hrun as ->.
    exfalso. revert Hres. apply resolution_never_times_out.
  - exfalso. revert Hres. apply resolver_total.
Qed.

(** X12. The usage block reports and re-raises.  When the refresh returns
    (whatever it returns), the script returns and its last line is the one
    saying the pipeline can continue; when the refresh raises, the script
    raises the same exception, its last line being "Error: " followed by
    the message; it prints exactly one line after the refresh has ended. *)
Theorem usage_reports (srv : Backend) (w : World) :
  let refresh := refresh_sql_endpoint_and_wait srv "lakehouse_main" EmptyString 30 w in
  let script := usage srv w in
  (outcome script = Return tt <-> exists b, outcome refresh = Return b)
  /\ (forall e, outcome script = Raised e <-> outcome refresh = Raised e)
  /\ trace (final script)
     = (trace (final refresh)
        ++ [EvPrint
              match outcome refresh with
              | Raised e => "Error: " ++ message e
              | _ => "Pipeline can continue - SQL endpoint is refreshed!"
              end])%list.
Proof.
  intros refresh script.
  pose proof (refresh_total srv "lakehouse_main" EmptyString 30 w) as Hends.
  fold refresh in Hends. subst script. unfold usage, try_except, bind.
  cbv zeta. fold refresh.
  destruct refresh as [[b|e|] w'] eqn:E; unfold outcome, final in *;
    cbn [fst snd] in *.
  - unfold print, log. cbn [fst snd trace].
    split; [split; [intros _; now exists b | reflexivity] | split; [| reflexivity]].
    intros e. split; discriminate.
  - unfold print, raise, log. cbn [fst snd trace].
    split; [split; [discriminate | intros [b Hb]; discriminate] |
            split; [| reflexivity]].
    intros e'. split; intros [= ->]; reflexivity.
  - contradiction.
Qed.

(** ** What the listings contribute *)






(** X14. The direct path reads identifiers and display names only: the
    type of an item is never looked at there, so two direct listings with
    the same identifiers and names, in the same order, resolve alike,
    whatever types they carry. *)
Theorem direct_path_ignores_type (srv1 srv2 : Backend) (ws name tok : string)
    (w : World) :
  let a1 := respond srv1 (S (served w)) in
  let b1 := respond srv2 (S (served w)) in
  respond srv1 (served w) = respond srv2 (served w) ->
  status_code (respond srv1 (served w)) = 200 ->
  (exists lh, In lh (value_or_empty (respond srv1 (served w))) /\ displayName lh = name) ->
  status_code a1 = 200 ->
  status_code b1 = 200 ->
  map descriptor (value_or_empty a1) = map descriptor (value_or_empty b1) ->
  outcome (get_sql_endpoint_for_lakehouse srv1 ws name tok w)
  = outcome (get_sql_endpoint_for_lakehouse srv2 ws name tok w).
Proof.
  intros a1 b1 E0 H0 Hlh Ha Hb Hdesc.
  destruct (lakehouse_present name _ Hlh) as [lh Hfind].
  destruct (resolver_direct_path srv1 ws name tok w lh H0 Hfind Ha) as [-> _].
  rewrite E0 in H0, Hfind.
  destruct (resolver_direct_path srv2 ws name tok w lh H0 Hfind Hb) as [-> _].
  fold a1. fold b1.
  rewrite (descriptor_names _ _ Hdesc).
  pose proof (search_direct_descriptor name _ _ Hdesc) as Hsel.
  destruct (search_direct_path name (value_or_empty a1)) as [x|];
    destruct (search_direct_path name (value_or_empty b1)) as [y|];
    cbn [option_map] in Hsel; try discriminate; [| reflexivity].
  injection Hsel as Hid _. now rewrite Hid.
Qed.


End Script.

(** ** Concrete runs

    The runs below are on ASCII texts.  There Python's [str.lower] lowers
    the letters A to Z and nothing else, and the [repr] of a text puts it
    between quotes, escaping the quote, the backslash and the control
    characters: the script is run with [PyStr.ascii_lower] and
    [PyStr.ascii_repr]. *)

(** A whole run, event by event: the resolver on the direct path, a
    trigger answered 202 with a location, one pending poll, one sleep, a
    poll answered 200. *)
Example run_pending_then_done :
  refresh_sql_endpoint_and_wait PyStr.ascii_lower
    (Scenario.refresh_backend
       [Scenario.accepted "https://status"; Scenario.answer 202 "";
        Scenario.answer 200 ""]
       (Scenario.answer 500 "unexpected") 4)
    "foo" "ws" 1 world0
  = (Return true,
     {| clock := 50;
        served := 5;
        trace :=
          [EvGetToken "pbi";
           EvPrint "Using workspace ID: ws";
           EvPrint "Looking for lakehouse: foo";
           EvGet "https://api.fabric.microsoft.com/v1/workspaces/ws/lakehouses";
           EvPrint "Found lakehouse 'foo' with ID: L1";
           EvPrint "Looking for SQL endpoints in workspace...";
           EvGet "https://api.fabric.microsoft.com/v1/workspaces/ws/sqlEndpoints";
           EvPrint "Found 1 SQL endpoints:";
           EvPrint "  - foo (ID: E1)";
           EvPrint "Found SQL endpoint: 'foo' with ID: E1";
           EvPrint ("Refresh URL: " ++ refresh_url "ws" "E1");
           EvPost "https://api.fabric.microsoft.com/v1/workspaces/ws/sqlEndpoints/E1/refreshMetadata";
           EvPrint "Response status: 202";
           EvPrint "Response: ";
           EvPrint "Refresh started. Monitoring status...";
           EvGet "https://status";
           EvPrint "⏳ Refresh still in progress...";
           EvSleep 30;
           EvGet "https://status";
           EvPrint "✅ Refresh completed successfully!"] |}).
Proof. vm_compute. reflexivity. Qed.

(** The same backend with a second of patience less than the first round
    takes: the deadline passes during the sleep and the second poll is
    never issued. *)
Example run_deadline_during_sleep :
  let run :=
    refresh_sql_endpoint_and_wait PyStr.ascii_lower
      (Scenario.refresh_backend
         [Scenario.accepted "https://status"; Scenario.answer 202 "";
          Scenario.answer 200 ""]
         (Scenario.answer 500 "unexpected") 40)
      "foo" "ws" 1 world0 in
  outcome run = Raised (RefreshTimedOut 1)
  /\ message PyStr.ascii_repr (RefreshTimedOut 1) = "Refresh timed out after 1 minutes"
  /\ served (final run) = 4%nat.
Proof. vm_compute. repeat split. Qed.

Lemma items_path_priority_witness :
  outcome
    (get_sql_endpoint_for_lakehouse PyStr.ascii_lower
       (Scenario.items_backend
          [Scenario.lakehouse_foo;
           Scenario.endpoint "E1" "foo - SQL analytics endpoint";
           Scenario.endpoint "E2" "foo"])
       "ws" "foo" "token" world0)
  = Return "E1"
  /\ outcome
       (get_sql_endpoint_for_lakehouse PyStr.ascii_lower
          (Scenario.items_backend
             [Scenario.lakehouse_foo; Scenario.endpoint "E3" "foo_old";
              Scenario.endpoint "E4" "FOO"])
          "ws" "foo" "token" world0)
     = Return "E4".
Proof.
  split.
  - refine (proj2 (proj2 (items_path_priority PyStr.ascii_lower
                            (Scenario.items_backend
                               [Scenario.lakehouse_foo;
                                Scenario.endpoint "E1" "foo - SQL analytics endpoint";
                                Scenario.endpoint "E2" "foo"])
                            "ws" "foo" "token" world0 _ _ _ _))
              (fun s _ => eq_refl) "E1" "E2" _ _ eq_refl eq_refl).
    + reflexivity.
    + exists Scenario.lakehouse_foo. split; [left |]; reflexivity.
    + vm_compute. discriminate.
    + reflexivity.
  - refine (proj1 (proj2 (items_path_priority PyStr.ascii_lower
                            (Scenario.items_backend
                               [Scenario.lakehouse_foo; Scenario.endpoint "E3" "foo_old";
                                Scenario.endpoint "E4" "FOO"])
                            "ws" "foo" "token" world0 _ _ _ _))
              _ (Scenario.endpoint "E4" "FOO") _).
    + reflexivity.
    + exists Scenario.lakehouse_foo. split; [left |]; reflexivity.
    + vm_compute. discriminate.
    + reflexivity.
    + intros x Hx Ha. apply marker_match_iff in Ha.
      destruct Hx as [<- | [<- | []]]; discriminate Ha.
    + exists [Scenario.endpoint "E3" "foo_old"], [].
      split; [reflexivity | split; [reflexivity |]].
      intros x [<- | []] H. discriminate H.
Defined.

Lemma poll_protocol_witness :
  (outcome
     (refresh_sql_endpoint_and_wait PyStr.ascii_lower
        (Scenario.refresh_backend
           [Scenario.accepted "https://status"; Scenario.answer 202 "";
            Scenario.answer 200 ""]
           (Scenario.answer 500 "unexpected") 0)
        "foo" "ws" 1 world0)
   = Return true
   /\ sleeps
        (trace
           (final
              (refresh_sql_endpoint_and_wait PyStr.ascii_lower
                 (Scenario.refresh_backend
                    [Scenario.accepted "https://status"; Scenario.answer 202 "";
                     Scenario.answer 200 ""]
                    (Scenario.answer 500 "unexpected") 0)
                 "foo" "ws" 1 world0)))
      = [30])
  /\ outcome
       (refresh_sql_endpoint_and_wait PyStr.ascii_lower
          (Scenario.refresh_backend [Scenario.accepted "https://status"]
             (Scenario.answer 202 "") 0)
          "foo" "ws" 1 world0)
     = Raised (RefreshTimedOut 1).
Proof.
  split.
  - destruct (proj1 (proj2 (poll_protocol PyStr.ascii_lower
                              (Scenario.refresh_backend
                                 [Scenario.accepted "https://status";
                                  Scenario.answer 202 ""; Scenario.answer 200 ""]
                                 (Scenario.answer 500 "unexpected") 0)
                              "foo" "ws" 1 world0 "E1" "https://status"
                              eq_refl eq_refl eq_refl ltac:(discriminate)))
                 eq_refl eq_refl eq_refl) as [Ho [Hs _]].
    split; [exact Ho | exact Hs].
  - refine (proj2 (proj2 (proj2 (poll_protocol PyStr.ascii_lower
                                   (Scenario.refresh_backend
                                      [Scenario.accepted "https://status"]
                                      (Scenario.answer 202 "") 0)
                                   "foo" "ws" 1 world0 "E1" "https://status"
                                   eq_refl eq_refl eq_refl ltac:(discriminate))))
              eq_refl _).
    intros i. unfold Scenario.refresh_backend, Scenario.scripted. cbn [respond].
    do 4 (destruct i as [|i]; [reflexivity |]). destruct i; reflexivity.
Defined.

Lemma lakehouse_lookup_witness :
  (exists rest,
     trace
       (final
          (get_sql_endpoint_for_lakehouse PyStr.ascii_lower
             (Scenario.lakehouses_backend
                [Scenario.lakehouse "L0" "Foo"; Scenario.lakehouse "L1" "foo";
                 Scenario.lakehouse "L2" "foo"])
             "ws" "foo" "token" world0))
     = ([EvPrint "Looking for lakehouse: foo";
         EvGet "https://api.fabric.microsoft.com/v1/workspaces/ws/lakehouses";
         EvPrint "Found lakehouse 'foo' with ID: L1"] ++ rest)%list)
  /\ outcome
       (get_sql_endpoint_for_lakehouse PyStr.ascii_lower
          (Scenario.lakehouses_backend [Scenario.lakehouse "L1" "foo"])
          "ws" "Foo" "token" world0)
     = Raised (NotFound "Foo" ["foo"]).
Proof.
  split.
  - refine (proj1 (proj1 (lakehouse_lookup PyStr.ascii_lower PyStr.ascii_repr
                            (Scenario.lakehouses_backend
                               [Scenario.lakehouse "L0" "Foo";
                                Scenario.lakehouse "L1" "foo";
                                Scenario.lakehouse "L2" "foo"])
                            "ws" "foo" "token" world0 _)
                     (Scenario.lakehouse "L1" "foo") _)).
    + reflexivity.
    + exists [Scenario.lakehouse "L0" "Foo"], [Scenario.lakehouse "L2" "foo"].
      split; [reflexivity | split; [reflexivity |]].
      intros x [<- | []] H. discriminate H.
  - refine (proj1 (proj2 (lakehouse_lookup PyStr.ascii_lower PyStr.ascii_repr
                            (Scenario.lakehouses_backend [Scenario.lakehouse "L1" "foo"])
                            "ws" "Foo" "token" world0 _) _)).
    + reflexivity.
    + intros x [<- | []] H. discriminate H.
Defined.

Lemma immediate_completion_witness :
  outcome
    (refresh_sql_endpoint_and_wait PyStr.ascii_lower
       (Scenario.refresh_backend [Scenario.answer 200 "done"]
          (Scenario.answer 500 "unexpected") 2)
       "foo" "ws" 30 world0)
  = Return true
  /\ outcome
       (refresh_sql_endpoint_and_wait PyStr.ascii_lower
          (Scenario.refresh_backend [Scenario.answer 202 "accepted"]
             (Scenario.answer 500 "unexpected") 2)
          "foo" "ws" 30 world0)
     = Return true.
Proof.
  split.
  - refine (proj1 (proj1 (immediate_completion PyStr.ascii_lower
                            (Scenario.refresh_backend [Scenario.answer 200 "done"]
                               (Scenario.answer 500 "unexpected") 2)
                            "foo" "ws" 30 world0 "E1" _) _)).
    + reflexivity.
    + reflexivity.
  - refine (proj1 (proj2 (immediate_completion PyStr.ascii_lower
                            (Scenario.refresh_backend [Scenario.answer 202 "accepted"]
                               (Scenario.answer 500 "unexpected") 2)
                            "foo" "ws" 30 world0 "E1" _) _ _)).
    + reflexivity.
    + reflexivity.
    + reflexivity.
Defined.

Lemma unexpected_status_is_fatal_witness :
  outcome
    (refresh_sql_endpoint_and_wait PyStr.ascii_lower
       (Scenario.refresh_backend
          [Scenario.accepted "https://status"; Scenario.answer 202 "";
           Scenario.answer 503 "busy"]
          (Scenario.answer 200 "") 1)
       "foo" "ws" 30 world0)
  = Raised (PollFailed 503 "busy")
  /\ outcome
       (refresh_sql_endpoint_and_wait PyStr.ascii_lower
          (Scenario.refresh_backend [Scenario.answer 404 "no such endpoint"]
             (Scenario.answer 200 "") 1)
          "foo" "ws" 30 world0)
     = Raised (TriggerFailed 404 "no such endpoint").
Proof.
  split.
  - refine (proj1 (proj2 (unexpected_status_is_fatal PyStr.ascii_lower PyStr.ascii_repr
                            (Scenario.refresh_backend
                               [Scenario.accepted "https://status";
                                Scenario.answer 202 ""; Scenario.answer 503 "busy"]
                               (Scenario.answer 200 "") 1)
                            "foo" "ws" 30 world0 "E1" _)
                     "https://status" 1%nat _ _ _ _ _ _ _)).
    + reflexivity.
    + reflexivity.
    + reflexivity.
    + discriminate.
    + intros [|i] Hi; [reflexivity | lia].
    + vm_compute. reflexivity.
    + vm_compute. discriminate.
    + vm_compute. discriminate.
  - refine (proj1 (proj1 (unexpected_status_is_fatal PyStr.ascii_lower PyStr.ascii_repr
                            (Scenario.refresh_backend
                               [Scenario.answer 404 "no such endpoint"]
                               (Scenario.answer 200 "") 1)
                            "foo" "ws" 30 world0 "E1" _) _ _)).
    + reflexivity.
    + vm_compute. discriminate.
    + vm_compute. discriminate.
Defined.

(** C6 as stated fails: with two plausible endpoints the resolution does
    not fail, it returns the first of them. *)
Lemma ties_do_not_fail :
  let e1 := Scenario.endpoint "E1" "foo sql" in
  let e2 := Scenario.endpoint "E2" "foo analytics" in
  let run :=
    get_sql_endpoint_for_lakehouse PyStr.ascii_lower
      (Scenario.items_backend [Scenario.lakehouse_foo; e1; e2])
      "ws" "foo" "token" world0 in
  plausible_items PyStr.ascii_lower "foo" e1 /\ plausible_items PyStr.ascii_lower "foo" e2 /\ id e1 <> id e2
  /\ outcome run = Return "E1"
  /\ forall failure, outcome run <> Raised failure.
Proof.
  cbv zeta. repeat split.
  - left. apply marker_match_iff. reflexivity.
  - left. apply marker_match_iff. reflexivity.
  - discriminate.
  - discriminate.
Qed.

Lemma resolution_first_match_wins_witness :
  exists e,
    first_with (plausible_direct PyStr.ascii_lower "foo")
      [Scenario.endpoint "E1" "foo one"; Scenario.endpoint "E2" "foo two"] e
    /\ outcome
         (get_sql_endpoint_for_lakehouse PyStr.ascii_lower
            (Scenario.direct_backend
               [Scenario.endpoint "E1" "foo one"; Scenario.endpoint "E2" "foo two"])
            "ws" "foo" "token" world0)
       = Return (id e).
Proof.
  refine (proj2 (proj1 (resolution_first_match_wins PyStr.ascii_lower
                          (Scenario.direct_backend
                             [Scenario.endpoint "E1" "foo one";
                              Scenario.endpoint "E2" "foo two"])
                          "ws" "foo" "token" world0 _ _) _) _).
  - reflexivity.
  - exists Scenario.lakehouse_foo. split; [left |]; reflexivity.
  - reflexivity.
  - exists (Scenario.endpoint "E1" "foo one"). split; [left; reflexivity |].
    apply contains_iff. reflexivity.
Defined.

Lemma direct_path_relaxed_witness :
  outcome
    (get_sql_endpoint_for_lakehouse PyStr.ascii_lower
       (Scenario.direct_backend
          [Scenario.endpoint "E0" "bar"; Scenario.endpoint "E1" "Foo_copy";
           Scenario.endpoint "E2" "foo"])
       "ws" "foo" "token" world0)
  = Return "E1".
Proof.
  refine (proj1 (direct_path_relaxed PyStr.ascii_lower
                   (Scenario.direct_backend
                      [Scenario.endpoint "E0" "bar"; Scenario.endpoint "E1" "Foo_copy";
                       Scenario.endpoint "E2" "foo"])
                   "ws" "foo" "token" world0 _ _ _)
            (Scenario.endpoint "E1" "Foo_copy") _).
  - reflexivity.
  - exists Scenario.lakehouse_foo. split; [left |]; reflexivity.
  - reflexivity.
  - exists [Scenario.endpoint "E0" "bar"], [Scenario.endpoint "E2" "foo"].
    split; [reflexivity | split].
    + apply contains_iff. reflexivity.
    + intros x [<- | []] H. apply contains_iff in H. discriminate H.
Defined.

Lemma direct_failure_falls_back_witness :
  outcome
    (get_sql_endpoint_for_lakehouse PyStr.ascii_lower
       (Scenario.items_backend
          [Scenario.lakehouse_foo;
           {| id := "W1"; displayName := "foo sql"; type := Some "Warehouse" |};
           Scenario.endpoint "E7" "FOO"])
       "ws" "foo" "token" world0)
  = Return "E7".
Proof.
  refine (proj1 (proj2 (proj2 (proj2 (direct_failure_falls_back PyStr.ascii_lower
                   (Scenario.items_backend
                      [Scenario.lakehouse_foo;
                       {| id := "W1"; displayName := "foo sql";
                          type := Some "Warehouse" |};
                       Scenario.endpoint "E7" "FOO"])
                   "ws" "foo" "token" world0 _ _ _) _)))
            _ (Scenario.endpoint "E7" "FOO") _).
  - reflexivity.
  - exists Scenario.lakehouse_foo. split; [left |]; reflexivity.
  - vm_compute. discriminate.
  - reflexivity.
  - intros x [<- | []] Ha. apply marker_match_iff in Ha. discriminate Ha.
  - exists [], []. split; [reflexivity | split; [reflexivity | intros x []]].
Defined.

(** C9 as stated fails: the two listings describe the same endpoint, the
    direct path selects it and the items path finds no endpoint. *)
Lemma paths_disagree_on_same_resources :
  let endpoints := [Scenario.endpoint "E1" "foo_bar"] in
  let items := Scenario.lakehouse_foo :: endpoints in
  same_resources endpoints items
  /\ outcome
       (get_sql_endpoint_for_lakehouse PyStr.ascii_lower
          (Scenario.direct_backend endpoints) "ws" "foo" "token" world0)
     = Return "E1"
  /\ outcome
       (get_sql_endpoint_for_lakehouse PyStr.ascii_lower
          (Scenario.items_backend items) "ws" "foo" "token" world0)
     = Raised (NoMatchingEndpoint true "foo" ["foo_bar"]).
Proof.
  cbv zeta. split; [| split; reflexivity].
  apply same_other; [discriminate |].
  apply same_endpoint; [reflexivity | reflexivity | reflexivity | apply same_none].
Qed.

Lemma fallback_once_same_candidates_witness :
  outcome
    (get_sql_endpoint_for_lakehouse PyStr.ascii_lower
       (Scenario.items_backend
          [Scenario.lakehouse_foo; Scenario.endpoint "E1" "foo - SQL analytics endpoint"])
       "ws" "foo" "token" world0)
  = Return "E1"
  <-> outcome
        (get_sql_endpoint_for_lakehouse PyStr.ascii_lower
           (Scenario.direct_backend
              [{| id := "E1"; displayName := "foo - SQL analytics endpoint";
                  type := None |}])
           "ws" "foo" "token" world0)
      = Return "E1".
Proof.
  refine (proj1 (proj2 (proj2 (proj2 (fallback_once_same_candidates PyStr.ascii_lower
     (Scenario.direct_backend
        [{| id := "E1"; displayName := "foo - SQL analytics endpoint"; type := None |}])
     (Scenario.items_backend
        [Scenario.lakehouse_foo; Scenario.endpoint "E1" "foo - SQL analytics endpoint"])
     "ws" "foo" "token" world0 _ _ _) _ _ _ _ _)) _) "E1").
  - reflexivity.
  - exists Scenario.lakehouse_foo. split; [left |]; reflexivity.
  - vm_compute. discriminate.
  - reflexivity.
  - reflexivity.
  - exists Scenario.lakehouse_foo. split; [left |]; reflexivity.
  - reflexivity.
  - apply same_other; [discriminate |].
    apply same_endpoint; [reflexivity | reflexivity | reflexivity | apply same_none].
  - intros x [<- | []] _. left. apply contains_iff. reflexivity.
Defined.

Lemma no_patience_no_poll_witness :
  outcome
    (refresh_sql_endpoint_and_wait PyStr.ascii_lower
       (Scenario.refresh_backend [Scenario.accepted "https://status"]
          (Scenario.answer 200 "") 0)
       "foo" "ws" 0 world0)
  = Raised (RefreshTimedOut 0).
Proof.
  refine (proj1 (no_patience_no_poll PyStr.ascii_lower
                   (Scenario.refresh_backend [Scenario.accepted "https://status"]
                      (Scenario.answer 200 "") 0)
                   "foo" "ws" 0 world0 "E1" "https://status" _ _ _ _ _)).
  - reflexivity.
  - reflexivity.
  - reflexivity.
  - discriminate.
  - lia.
Defined.

Lemma lakehouse_gate_witness :
  outcome
    (get_sql_endpoint_for_lakehouse PyStr.ascii_lower
       (Scenario.scripted [] (Scenario.answer 401 "token expired") 3)
       "ws" "foo" "token" world0)
  = Raised (LakehousesListFailed 401 "token expired")
  /\ issued_gets "ws" 1 world0
       (get_sql_endpoint_for_lakehouse PyStr.ascii_lower
          (Scenario.lakehouses_backend [Scenario.lakehouse "L1" "bar"])
          "ws" "foo" "token" world0).
Proof.
  split.
  - refine (proj1 (proj1 (lakehouse_gate PyStr.ascii_lower PyStr.ascii_repr
                            (Scenario.scripted [] (Scenario.answer 401 "token expired") 3)
                            "ws" "foo" "token" world0) _)).
    vm_compute. discriminate.
  - refine (proj2 (lakehouse_gate PyStr.ascii_lower PyStr.ascii_repr
                     (Scenario.lakehouses_backend [Scenario.lakehouse "L1" "bar"])
                     "ws" "foo" "token" world0) _ _).
    + reflexivity.
    + intros x [<- | []] H. discriminate H.
Defined.

Lemma items_listing_failure_witness :
  outcome
    (get_sql_endpoint_for_lakehouse PyStr.ascii_lower
       (Scenario.scripted
          [Scenario.listing [Scenario.lakehouse_foo]; Scenario.answer 404 "unavailable"]
          (Scenario.answer 403 "forbidden") 1)
       "ws" "foo" "token" world0)
  = Raised (ItemsListFailed 403 "forbidden").
Proof.
  refine (proj1 (items_listing_failure PyStr.ascii_lower PyStr.ascii_repr
                   (Scenario.scripted
                      [Scenario.listing [Scenario.lakehouse_foo];
                       Scenario.answer 404 "unavailable"]
                      (Scenario.answer 403 "forbidden") 1)
                   "ws" "foo" "token" world0 _ _ _ _)).
  - reflexivity.
  - exists Scenario.lakehouse_foo. split; [left |]; reflexivity.
  - vm_compute. discriminate.
  - vm_compute. discriminate.
Defined.

Lemma no_match_lists_candidates_witness :
  PyStr.occurs_in (PyStr.ascii_repr "bar's")
    (message PyStr.ascii_repr (NoMatchingEndpoint true "foo" ["bar's"; "baz"])).
Proof.
  refine (proj2 (proj2 (proj2 (proj2
            (no_match_lists_candidates PyStr.ascii_lower PyStr.ascii_repr
               (Scenario.items_backend
                  [Scenario.lakehouse_foo; Scenario.endpoint "E1" "bar's";
                   Scenario.endpoint "E2" "baz"])
               "ws" "foo" "token" world0 true "foo" ["bar's"; "baz"] _))))
            (Scenario.endpoint "E1" "bar's") _).
  - reflexivity.
  - left. reflexivity.
Defined.

Lemma lakehouse_id_not_used_witness :
  outcome
    (get_sql_endpoint_for_lakehouse PyStr.ascii_lower
       (Scenario.lakehouses_backend [Scenario.lakehouse "L1" "foo"])
       "ws" "foo" "token" world0)
  = outcome
      (get_sql_endpoint_for_lakehouse PyStr.ascii_lower
         (Scenario.lakehouses_backend
            [Scenario.lakehouse "L7" "bar"; Scenario.lakehouse "L9" "foo"])
         "ws" "foo" "token" world0).
Proof.
  refine (lakehouse_id_not_used PyStr.ascii_lower
            (Scenario.lakehouses_backend [Scenario.lakehouse "L1" "foo"])
            (Scenario.lakehouses_backend
               [Scenario.lakehouse "L7" "bar"; Scenario.lakehouse "L9" "foo"])
            "ws" "foo" "token" world0 _ _ _ _ _).
  - intros [|k] Hk; [now contradiction Hk | reflexivity].
  - reflexivity.
  - reflexivity.
  - exists (Scenario.lakehouse "L1" "foo"). split; [left |]; reflexivity.
  - exists (Scenario.lakehouse "L9" "foo"). split; [right; left |]; reflexivity.
Defined.

Lemma resolution_failure_ends_run_witness :
  outcome
    (refresh_sql_endpoint_and_wait PyStr.ascii_lower
       (Scenario.lakehouses_backend [Scenario.lakehouse "L1" "bar"])
       "foo" "ws" 30 world0)
  = Raised (NotFound "foo" ["bar"]).
Proof.
  refine (proj1 (resolution_failure_ends_run PyStr.ascii_lower
                   (Scenario.lakehouses_backend [Scenario.lakehouse "L1" "bar"])
                   "foo" "ws" 30 world0 (NotFound "foo" ["bar"]) _)).
  reflexivity.
Defined.

Lemma empty_location_is_no_location_witness :
  outcome
    (refresh_sql_endpoint_and_wait PyStr.ascii_lower
       (Scenario.refresh_backend [Scenario.accepted EmptyString]
          (Scenario.answer 202 "still running") 1)
       "foo" "ws" 30 world0)
  = Return true.
Proof.
  refine (proj1 (empty_location_is_no_location PyStr.ascii_lower
                   (Scenario.refresh_backend [Scenario.accepted EmptyString]
                      (Scenario.answer 202 "still running") 1)
                   "foo" "ws" 30 world0 "E1" _ _ _)).
  - reflexivity.
  - reflexivity.
  - reflexivity.
Defined.

Lemma bounded_polling_witness :
  exists (naps : nat) (last_poll : bool),
    let polls := (naps + (if last_poll then 1 else 0))%nat in
    schedule
      (trace
         (final
            (refresh_sql_endpoint_and_wait PyStr.ascii_lower
               (Scenario.refresh_backend [Scenario.accepted "https://status"]
                  (Scenario.answer 202 "") 0)
               "foo" "ws" 1 world0)))
    = ([EvGet "https://api.fabric.microsoft.com/v1/workspaces/ws/lakehouses";
        EvGet "https://api.fabric.microsoft.com/v1/workspaces/ws/sqlEndpoints"]
       ++ EvPost (refresh_url "ws" "E1")
          :: poll_rounds "https://status" naps
          ++ (if last_poll then [EvGet "https://status"] else []))%list
    /\ (polls = 0%nat \/ 30 * (Z.of_nat polls - 1) < 1 * 60)
    /\ Z.of_nat polls <= Z.max 0 (2 * 1).
Proof.
  refine (bounded_polling PyStr.ascii_lower
            (Scenario.refresh_backend [Scenario.accepted "https://status"]
               (Scenario.answer 202 "") 0)
            "foo" "ws" 1 world0 "E1" _).
  reflexivity.
Defined.

Lemma success_means_completed_witness :
  exists eid,
    outcome
      (resolution PyStr.ascii_lower
         (Scenario.refresh_backend [Scenario.answer 200 "done"]
            (Scenario.answer 500 "unexpected") 0)
         "foo" "ws" world0)
    = Return eid.
Proof.
  exact (proj1 (proj2 (success_means_completed PyStr.ascii_lower
                         (Scenario.refresh_backend [Scenario.answer 200 "done"]
                            (Scenario.answer 500 "unexpected") 0)
                         "foo" "ws" 30 world0 true eq_refl))).
Defined.

Lemma timeout_not_early_witness :
  exists eid polls,
    outcome
      (resolution PyStr.ascii_lower
         (Scenario.refresh_backend [Scenario.accepted "https://status"]
            (Scenario.answer 202 "") 1)
         "foo" "ws" world0)
    = Return eid
    /\ (forall i, (i < polls)%nat ->
          status_code
            (respond
               (Scenario.refresh_backend [Scenario.accepted "https://status"]
                  (Scenario.answer 202 "") 1)
               (3 + i))
          = 202)
    /\ requests_of
         (trace
            (final
               (refresh_sql_endpoint_and_wait PyStr.ascii_lower
                  (Scenario.refresh_backend [Scenario.accepted "https://status"]
                     (Scenario.answer 202 "") 1)
                  "foo" "ws" 1 world0)))
       = ([EvGet "https://api.fabric.microsoft.com/v1/workspaces/ws/lakehouses";
           EvGet "https://api.fabric.microsoft.com/v1/workspaces/ws/sqlEndpoints"]
          ++ EvPost (refresh_url "ws" eid) :: repeat (EvGet "https://status") polls)%list
    /\ 1 * 60
       <= clock
            (final
               (refresh_sql_endpoint_and_wait PyStr.ascii_lower
                  (Scenario.refresh_backend [Scenario.accepted "https://status"]
                     (Scenario.answer 202 "") 1)
                  "foo" "ws" 1 world0))
          - clock
              (loop_entry
                 (Scenario.refresh_backend [Scenario.accepted "https://status"]
                    (Scenario.answer 202 "") 1)
                 "ws" eid
                 (final
                    (resolution PyStr.ascii_lower
                       (Scenario.refresh_backend [Scenario.accepted "https://status"]
                          (Scenario.answer 202 "") 1)
                       "foo" "ws" world0))).
Proof.
  exact (proj2 (proj2 (timeout_not_early PyStr.ascii_lower
                         (Scenario.refresh_backend [Scenario.accepted "https://status"]
                            (Scenario.answer 202 "") 1)
                         "foo" "ws" 1 world0 1 eq_refl))).
Defined.


Lemma direct_path_ignores_type_witness :
  outcome
    (get_sql_endpoint_for_lakehouse PyStr.ascii_lower
       (Scenario.direct_backend [Scenario.endpoint "E1" "foo"])
       "ws" "foo" "token" world0)
  = outcome
      (get_sql_endpoint_for_lakehouse PyStr.ascii_lower
         (Scenario.direct_backend
            [{| id := "E1"; displayName := "foo"; type := Some "Warehouse" |}])
         "ws" "foo" "token" world0).
Proof.
  refine (direct_path_ignores_type PyStr.ascii_lower
            (Scenario.direct_backend [Scenario.endpoint "E1" "foo"])
            (Scenario.direct_backend
               [{| id := "E1"; displayName := "foo"; type := Some "Warehouse" |}])
            "ws" "foo" "token" world0 _ _ _ _ _ _).
  - reflexivity.
  - reflexivity.
  - exists Scenario.lakehouse_foo. split; [left |]; reflexivity.
  - reflexivity.
  - reflexivity.
  - reflexivity.
Defined.
